(** * jaywt: extraction and validation of a JWT carried on an HTTP request

    A shallow embedding of [jaywt.go] (package [jaywt]): the default
    extractor [FromAuthHeader], the constructor [New], the two entry points
    [Get] and [GetWithClaims], and the helpers [rawToken] and
    [validateToken].

    Go strings are byte sequences and are modelled by [string] (a list of
    8-bit characters).  A Go [error] is only ever tested against [nil] and
    rendered with [%v], so it is modelled by its message; [option error] is
    the nilable interface value.  Pointers to [Options] are locations of a
    store, since [New] writes through the pointer it receives and the
    returned [Core] keeps that same pointer. *)

From Stdlib Require Import String Ascii List Bool Arith Lia.
From stdpp Require Import base option strings gmap.

Import ListNotations.
Local Open Scope string_scope.

(** ** The parts of Go's [strings] package that the extractor calls *)

Module strings.

Definition space : ascii := " "%char.

(** [strings.Split(s, sep)] for a one-byte separator, the only form the
    package uses ([strings.Split(header, " ")]): the substrings between
    the separators, in order; [n] separators give [n + 1] parts. *)
Fixpoint Split (s : string) (sep : ascii) : list string :=
  match s with
  | EmptyString => [EmptyString]
  | String c s' =>
      if Ascii.eqb c sep then EmptyString :: Split s' sep
      else match Split s' sep with
           | p :: ps => String c p :: ps
           | [] => [String c EmptyString]
           end
  end.

(** One byte of [strings.ToLower]: ['A'..'Z'] go to ['a'..'z'], every other
    byte is kept. *)
Definition lower_byte (c : ascii) : ascii :=
  let n := nat_of_ascii c in
  if Nat.leb 65 n && Nat.leb n 90 then ascii_of_nat (n + 32) else c.

(** [strings.ToLower] on the bytes of the string.  Go lowers runes; on a
    string with a byte above 127 the two results may differ, but both then
    keep a byte above 127 or produce a letter outside of "bearer" (only
    U+212A and U+0130 lower to ASCII, to 'k' and 'i'), so the comparison
    with "bearer" made by the extractor is the same. *)
Fixpoint ToLower (s : string) : string :=
  match s with
  | EmptyString => EmptyString
  | String c s' => String (lower_byte c) (ToLower s')
  end.

(** The string has no occurrence of the byte [c]. *)
Fixpoint lacks (c : ascii) (s : string) : bool :=
  match s with
  | EmptyString => true
  | String d s' => negb (Ascii.eqb d c) && lacks c s'
  end.

(** Number of occurrences of the byte [c]. *)
Fixpoint count (c : ascii) (s : string) : nat :=
  match s with
  | EmptyString => 0
  | String d s' => (if Ascii.eqb d c then 1 else 0) + count c s'
  end.

End strings.

(** ** Values of the collaborating packages

    [net/http] and [jwt-go] are not part of the package; the types below
    keep what [jaywt.go] reads of them. *)

(** A Go [error], by the text of its [Error()] method. *)
Definition error : Type := string.

(** A value of type [interface{}], as stored in a token header: the nil
    interface, a value of dynamic type [string], or a value of another
    dynamic type, kept by the text [fmt] prints for it under [%s]. *)
Inductive iface : Type :=
| INil
| IString (s : string)
| IOther (rendering : string).

(** [v == s] for an interface value [v] and a string [s]: true exactly when
    the dynamic type is [string] and the bytes agree. *)
Definition iface_eq_string (s : string) (v : iface) : bool :=
  match v with
  | IString t => String.eqb s t
  | INil | IOther _ => false
  end.

(** The operand of a [%s] verb. *)
Definition Sprint_s (v : iface) : string :=
  match v with
  | INil => "%!s(<nil>)"
  | IString s => s
  | IOther rendering => rendering
  end.

(** [m[k]] on a [map[string]interface{}]: the zero value, the nil interface,
    when the key is absent (or the map is nil). *)
Definition map_index (m : gmap string iface) (k : string) : iface :=
  default INil (m !! k).

Module http.

(** A request that is not the nil pointer, by its [http.Header], keyed by
    canonical header names. *)
Record Request : Type := { Header : gmap string (list string) }.

(** [h.Get(key)] for an already canonical [key]: the first value stored
    under it, or the empty string. *)
Definition Header_Get (h : gmap string (list string)) (key : string) : string :=
  match h !! key with
  | Some (v :: _) => v
  | _ => ""
  end.

End http.

Module jwt.

(** [jwt.SigningMethod]: of the interface only [Alg()] is called.  The
    record stands for a method whose [Alg()] returns; a value whose [Alg()]
    panics (a nil pointer inside a non-nil interface, say) is not
    described. *)
Record SigningMethod : Type := { Alg : string }.

(** [jwt.SigningMethodHS256], whose [Alg()] is "HS256". *)
Definition SigningMethodHS256 : SigningMethod := {| Alg := "HS256" |}.

(** [jwt.Token]: header, claims, the raw text and the verified flag. *)
Record Token (claims_t : Type) : Type :=
  { Raw : string;
    Header : gmap string iface;
    Claims : claims_t;
    Valid : bool }.

Arguments Raw {claims_t} _.
Arguments Header {claims_t} _.
Arguments Claims {claims_t} _.
Arguments Valid {claims_t} _.

End jwt.

(** ** The package's own types, the store and the monad of effects *)

(** Result of running Go code: a value, or a run-time panic (a nil pointer
    dereferenced, a nil function called). *)
Inductive outcome (A : Type) : Type :=
| Ret (a : A)
| Panic.

Arguments Ret {A} a.
Arguments Panic {A}.

(** Address of an [Options] struct. *)
Definition loc : Type := nat.

Section Types.

(** [claims_t]: the values of interface type [jwt.Claims];
    [keyfunc_t]: the function values of type [jwt.Keyfunc];
    [closure_t]: the extractor functions written by callers;
    [env_t]: the memory outside of the [Options] structs. *)
Context {claims_t keyfunc_t closure_t env_t : Type}.

(** A function value of type [TokenExtractor]: the package's own
    [FromAuthHeader], or a function of the caller. *)
Inductive TokenExtractor : Type :=
| ExtFromAuthHeader
| ExtClosure (f : closure_t).

(** [nil] fields are [None]. *)
Record Options : Type :=
  { Keyfunc : option keyfunc_t;
    Extractor : option TokenExtractor;
    SigningMethod : option jwt.SigningMethod }.

(** [Core] keeps the pointer it was given. *)
Record Core : Type := { Core_Options : option loc }.

Record World : Type :=
  { store : gmap loc Options;
    env : env_t }.

(** Go code: from a world to an outcome and the world it leaves. *)
Definition M (A : Type) : Type := World -> outcome A * World.

Definition ret {A} (a : A) : M A := fun w => (Ret a, w).

Definition panic {A} : M A := fun w => (Panic, w).

Definition bind {A B} (c : M A) (k : A -> M B) : M B :=
  fun w =>
    match c w with
    | (Ret a, w') => k a w'
    | (Panic, w') => (Panic, w')
    end.

(** [*p]: panics on the nil pointer. *)
Definition deref (p : option loc) : M Options :=
  fun w =>
    match p with
    | Some l =>
        match store w !! l with
        | Some o => (Ret o, w)
        | None => (Panic, w)
        end
    | None => (Panic, w)
    end.

(** [*p = o]: panics on the nil pointer. *)
Definition assign (p : option loc) (o : Options) : M unit :=
  fun w =>
    match p with
    | Some l =>
        match store w !! l with
        | Some _ => (Ret tt, {| store := <[l := o]> (store w); env := env w |})
        | None => (Panic, w)
        end
    | None => (Panic, w)
    end.

(** The pair of a token pointer and an error returned by the parse
    routines and by the entry points. *)
Definition parsed : Type := option (jwt.Token claims_t) * option error.

(** What the package calls and does not define: the extractor functions
    of callers and the two parse routines of [jwt-go].  Each may read and
    write the world. *)
Class Library : Type :=
  { call_closure : closure_t -> http.Request -> M (string * option error);
    jwt_Parse : string -> option keyfunc_t -> M parsed;
    jwt_ParseWithClaims : string -> claims_t -> option keyfunc_t -> M parsed }.

End Types.

Arguments TokenExtractor : clear implicits.
Arguments Options : clear implicits.
Arguments World : clear implicits.
Arguments M : clear implicits.
Arguments Library : clear implicits.
Arguments parsed : clear implicits.

Declare Scope go_scope.
Delimit Scope go_scope with go.
Notation "x <- c ;; k" := (bind c (fun x => k))
  (at level 100, c at next level, right associativity) : go_scope.
Local Open Scope go_scope.

(** ** The package *)

Section Jaywt.

Context {claims_t keyfunc_t closure_t env_t : Type}.
Context {lib : Library claims_t keyfunc_t closure_t env_t}.

Local Abbreviation Options := (Options keyfunc_t closure_t).
Local Abbreviation M := (M keyfunc_t closure_t env_t).
Local Abbreviation TokenExtractor := (TokenExtractor closure_t).

(** The text of the error [FromAuthHeader] builds with [fmt.Errorf]. *)
Definition format_error : error :=
  "Authorization header format must be 'Bearer <token>'".

(** [func FromAuthHeader(r *http.Request) (string, error)] *)
Definition FromAuthHeader (r : http.Request) : string * option error :=
  let header := http.Header_Get (http.Header r) "Authorization" in
  if String.eqb header "" then ("", None)
  else
    let parts := strings.Split header strings.space in
    if negb (Nat.eqb (length parts) 2)
       || negb (String.eqb (strings.ToLower (nth 0 parts "")) "bearer")
    then ("", Some format_error)
    else (nth 1 parts "", None).

(** Calling a value of type [TokenExtractor]. *)
Definition call_extractor (f : TokenExtractor) (r : http.Request)
  : M (string * option error) :=
  match f with
  | ExtFromAuthHeader => ret (FromAuthHeader r)
  | ExtClosure c => call_closure c r
  end.

(** [p.Extractor = f] and [p.SigningMethod = s]: a write through the
    pointer, to one field of the struct it points to. *)
Definition set_Extractor (p : option loc) (f : option TokenExtractor) : M unit :=
  opts <- deref p ;;
  assign p {| Keyfunc := Keyfunc opts;
              Extractor := f;
              SigningMethod := SigningMethod opts |}.

Definition set_SigningMethod (p : option loc) (s : option jwt.SigningMethod)
  : M unit :=
  opts <- deref p ;;
  assign p {| Keyfunc := Keyfunc opts;
              Extractor := Extractor opts;
              SigningMethod := s |}.

(** [func New(o *Options) *Core] *)
Definition New (o : option loc) : M Core :=
  opts <- deref o ;;
  _ <- match Extractor opts with
       | None => set_Extractor o (Some ExtFromAuthHeader)
       | Some _ => ret tt
       end ;;
  opts <- deref o ;;
  _ <- match SigningMethod opts with
       | None => set_SigningMethod o (Some jwt.SigningMethodHS256)
       | Some _ => ret tt
       end ;;
  ret {| Core_Options := o |}.

(** [func (m *Core) rawToken(r *http.Request) (string, error)] *)
Definition rawToken (m : Core) (r : http.Request) : M (string * option error) :=
  opts <- deref (Core_Options m) ;;
  match Extractor opts with
  | None => panic
  | Some extractor =>
      extracted <- call_extractor extractor r ;;
      let '(raw, err) := extracted in
      match err with
      | Some e => ret ("", Some ("Error extracting token: " ++ e))
      | None =>
          if String.eqb raw "" then ret ("", Some "Token not found")
          else ret (raw, None)
      end
  end.

(** [func (m *Core) validateToken(token *jwt.Token) error] *)
Definition validateToken (m : Core) (token : option (jwt.Token claims_t))
  : M (option error) :=
  opts <- deref (Core_Options m) ;;
  match SigningMethod opts with
  | None => panic
  | Some method =>
      let alg := jwt.Alg method in
      match token with
      | None => panic
      | Some t =>
          if negb (iface_eq_string alg (map_index (jwt.Header t) "alg"))
          then ret (Some ("Invalid token algorithm. Wanted " ++ alg ++ ", got "
                          ++ Sprint_s (map_index (jwt.Header t) "alg")))
          else ret None
      end
  end.

(** [func (m *Core) Get(r *http.Request)], returning a token pointer and
    an error *)
Definition Get (m : Core) (r : http.Request) : M (parsed claims_t) :=
  extracted <- rawToken m r ;;
  let '(raw, err) := extracted in
  match err with
  | Some e => ret (None, Some e)
  | None =>
      opts <- deref (Core_Options m) ;;
      result <- jwt_Parse raw (Keyfunc opts) ;;
      let '(token, err) := result in
      match err with
      | Some e => ret (None, Some ("Error parsing token: " ++ e))
      | None =>
          err <- validateToken m token ;;
          match err with
          | Some e => ret (None, Some e)
          | None => ret (token, None)
          end
      end
  end.

(** [func (m *Core) GetWithClaims(r *http.Request, claims jwt.Claims)],
    returning a token pointer and an error *)
Definition GetWithClaims (m : Core) (r : http.Request) (claims : claims_t)
  : M (parsed claims_t) :=
  extracted <- rawToken m r ;;
  let '(raw, err) := extracted in
  match err with
  | Some e => ret (None, Some e)
  | None =>
      opts <- deref (Core_Options m) ;;
      result <- jwt_ParseWithClaims raw claims (Keyfunc opts) ;;
      let '(token, err) := result in
      match err with
      | Some e => ret (None, Some ("Error parsing token: " ++ e))
      | None =>
          err <- validateToken m token ;;
          match err with
          | Some e => ret (None, Some e)
          | None => ret (token, None)
          end
      end
  end.

End Jaywt.

(** ** Vocabulary of the statements *)

Section Vocabulary.

Context {claims_t keyfunc_t closure_t env_t : Type}.
Context {lib : Library claims_t keyfunc_t closure_t env_t}.

Local Abbreviation Options := (Options keyfunc_t closure_t).
Local Abbreviation World := (World keyfunc_t closure_t env_t).
Local Abbreviation M := (M keyfunc_t closure_t env_t).

(** In world [w] the pointer held by [m] points to the struct [o]. *)
Definition options_at (m : Core) (w : World) (o : Options) : Prop :=
  exists l, Core_Options m = Some l /\ store w !! l = Some o.

(** From world [w] the configured extractor, called on [r], returns the
    non-empty string [raw] and no error, leaving world [w1]. *)
Definition extracts (m : Core) (r : http.Request) (w : World)
    (raw : string) (w1 : World) : Prop :=
  exists o f,
    options_at m w o /\ Extractor o = Some f /\
    call_extractor f r w = (Ret (raw, None), w1) /\ raw <> "".

(** The expected signing method configured in world [w]. *)
Definition expects (m : Core) (w : World) (method : jwt.SigningMethod) : Prop :=
  exists o, options_at m w o /\ SigningMethod o = Some method.

(** A token was extracted from [r] and the parse routine [parse], given the
    configured key function, returned the token [tok] and no error,
    leaving world [w2]. *)
Definition verified_by (parse : string -> option keyfunc_t -> M (parsed claims_t))
    (m : Core) (r : http.Request) (w : World)
    (tok : jwt.Token claims_t) (w2 : World) : Prop :=
  exists raw w1 o1,
    extracts m r w raw w1 /\ options_at m w1 o1 /\
    parse raw (Keyfunc o1) w1 = (Ret (Some tok, None), w2).

(** A token was extracted from [r] and the parse routine [parse], given the
    configured key function, returned the error [cause] (with or without a
    token), leaving world [w2]. *)
Definition rejected_by (parse : string -> option keyfunc_t -> M (parsed claims_t))
    (m : Core) (r : http.Request) (w : World)
    (cause : error) (w2 : World) : Prop :=
  exists raw w1 o1 tok,
    extracts m r w raw w1 /\ options_at m w1 o1 /\
    parse raw (Keyfunc o1) w1 = (Ret (tok, Some cause), w2).

(** The validation pipeline in the words of the specification, over the
    parse routine it delegates to: obtain a non-empty raw token or fail;
    hand it and the configured key resolver to the parse routine, whose
    failure becomes a parsing error that carries the cause; run the
    algorithm-conformance check; return the verified token. *)
Definition validate_with (parse : string -> option keyfunc_t -> M (parsed claims_t))
    (m : Core) (r : http.Request) : M (parsed claims_t) :=
  extracted <- rawToken m r ;;
  match snd extracted with
  | Some failure => ret (None, Some failure)
  | None =>
      opts <- deref (Core_Options m) ;;
      result <- parse (fst extracted) (Keyfunc opts) ;;
      match snd result with
      | Some cause => ret (None, Some ("Error parsing token: " ++ cause))
      | None =>
          verdict <- validateToken m (fst result) ;;
          match verdict with
          | Some mismatch => ret (None, Some mismatch)
          | None => ret (fst result, None)
          end
      end
  end.

(** Every run of [c] takes a world to one related to it by [R]. *)
Definition stays_in {A} (R : relation World) (c : M A) : Prop :=
  forall w, R w (snd (c w)).

(** Two worlds with the same [Options] structs. *)
Definition same_store : relation World := fun w w' => store w' = store w.

(** The struct [o] with the two defaults in place of nil fields. *)
Definition with_defaults (o : Options) : Options :=
  {| Keyfunc := Keyfunc o;
     Extractor := Some (default ExtFromAuthHeader (Extractor o));
     SigningMethod := Some (default jwt.SigningMethodHS256 (SigningMethod o)) |}.

(** The world [w] with the struct [o] at address [l]. *)
Definition with_options (w : World) (l : loc) (o : Options) : World :=
  {| store := <[l := o]> (store w); env := env w |}.

(** The header is [scheme], one space and [value], neither of which has a
    space, and [scheme] is "bearer" up to the case of its letters. *)
Definition bearer_shape (header : string) : Prop :=
  exists scheme value,
    header = scheme ++ " " ++ value /\
    strings.lacks strings.space scheme = true /\
    strings.lacks strings.space value = true /\
    strings.ToLower scheme = "bearer".

(** Two results of a parse routine or of an entry point that carry the same
    error and are both without a token, or both with a token, the two with
    the same value under "alg"; the tokens may differ in all else, their
    claims in particular. *)
Definition alike (a b : parsed claims_t) : Prop :=
  snd a = snd b /\
  match fst a, fst b with
  | Some ta, Some tb =>
      map_index (jwt.Header ta) "alg" = map_index (jwt.Header tb) "alg"
  | None, None => True
  | _, _ => False
  end.

(** Two runs that both panic or both return, with results alike, and that
    leave the same [Options] structs; the rest of the world (the claims
    container, say) may differ. *)
Definition runs_alike (x y : outcome (parsed claims_t) * World) : Prop :=
  store (snd x) = store (snd y) /\
  match fst x, fst y with
  | Ret a, Ret b => alike a b
  | Panic, Panic => True
  | _, _ => False
  end.

End Vocabulary.

(** ** A small library to run the package on

    Tokens are [alg.payload.signature]; a signature is good when it is the
    key itself.  The parse routines record every raw token they are given
    in the environment. *)

Module demo.

(** [jwt.MapClaims] *)
Definition claims_t : Type := list (string * string).

(** A key function is the secret it returns. *)
Definition keyfunc_t : Type := string.

(** An extractor of the caller is the name of the header it returns. *)
Definition closure_t : Type := string.

(** The raw tokens seen by the parse routines, latest first. *)
Definition env_t : Type := list string.

Abbreviation World := (World keyfunc_t closure_t env_t).
Abbreviation M := (M keyfunc_t closure_t env_t).
Abbreviation Options := (Options keyfunc_t closure_t).

Definition dot : ascii := "."%char.

Definition header_of (alg : string) : gmap string iface :=
  if String.eqb alg "" then ∅ else {[ "alg" := IString alg ]}.

Definition parse (raw : string) (claims : claims_t) (keyfunc : option keyfunc_t)
  : M (parsed claims_t) :=
  fun w =>
    let w' := {| store := store w; env := raw :: env w |} in
    match strings.Split raw dot with
    | [alg; payload; signature] =>
        let token valid :=
          {| jwt.Raw := raw; jwt.Header := header_of alg;
             jwt.Claims := claims; jwt.Valid := valid |} in
        match keyfunc with
        | None => (Ret (Some (token false), Some "no Keyfunc was provided."), w')
        | Some key =>
            if String.eqb signature key then (Ret (Some (token true), None), w')
            else (Ret (Some (token false), Some "signature is invalid"), w')
        end
    | _ => (Ret (None, Some "token contains an invalid number of segments"), w')
    end.

Definition lib : Library claims_t keyfunc_t closure_t env_t :=
  {| call_closure := fun name r w =>
       (Ret (http.Header_Get (http.Header r) name, None), w);
     jwt_Parse := fun raw keyfunc => parse raw [] keyfunc;
     jwt_ParseWithClaims := fun raw claims keyfunc => parse raw claims keyfunc |}.

(** A request with the given [Authorization] header. *)
Definition request (authorization : string) : http.Request :=
  {| http.Header := {[ "Authorization" := [authorization] ]} |}.

(** A request without headers. *)
Definition bare : http.Request := {| http.Header := ∅ |}.

(** One [Options] struct at address 0, and the raw tokens parsed so far. *)
Definition seen (raws : list string) (o : Options) : World :=
  {| store := {[ 0 := o ]}; env := raws |}.

Definition world (o : Options) : World := seen [] o.

(** The token the parse routines build from [alg.payload.signature]. *)
Definition token (alg payload signature : string) (claims : claims_t)
    (valid : bool) : jwt.Token claims_t :=
  {| jwt.Raw := alg ++ "." ++ payload ++ "." ++ signature;
     jwt.Header := header_of alg;
     jwt.Claims := claims;
     jwt.Valid := valid |}.

Definition unset : Options :=
  {| Keyfunc := Some "k"; Extractor := None; SigningMethod := None |}.

Definition explicit : Options :=
  {| Keyfunc := Some "k";
     Extractor := Some ExtFromAuthHeader;
     SigningMethod := Some jwt.SigningMethodHS256 |}.

(** A struct written by hand, without a signing method. *)
Definition no_method : Options :=
  {| Keyfunc := Some "k";
     Extractor := Some ExtFromAuthHeader;
     SigningMethod := None |}.

(** A struct whose extractor returns the header [X-Token]. *)
Definition by_header : Options :=
  {| Keyfunc := Some "k";
     Extractor := Some (ExtClosure "X-Token");
     SigningMethod := Some jwt.SigningMethodHS256 |}.

(** The core made by [New] from the struct at address 0. *)
Definition core : Core := {| Core_Options := Some 0 |}.

(** A struct written by hand, without an extractor. *)
Definition no_extractor : Options :=
  {| Keyfunc := Some "k";
     Extractor := None;
     SigningMethod := Some jwt.SigningMethodHS256 |}.

(** A request with the given [Authorization] header and a cookie. *)
Definition request_with_cookie (authorization : string) : http.Request :=
  {| http.Header := {[ "Authorization" := [authorization; "ignored"];
                       "Cookie" := ["session=1"] ]} |}.

(** A library whose parse routines break their contract: they return
    neither a token nor an error. *)
Definition hollow : Library claims_t keyfunc_t closure_t env_t :=
  {| call_closure := fun name r w =>
       (Ret (http.Header_Get (http.Header r) name, None), w);
     jwt_Parse := fun raw keyfunc w => (Ret (None, None), w);
     jwt_ParseWithClaims := fun raw claims keyfunc w => (Ret (None, None), w) |}.

(** The library [lib], except that its parse routines panic on the empty
    string. *)
Definition strict : Library claims_t keyfunc_t closure_t env_t :=
  {| call_closure := fun name r w =>
       (Ret (http.Header_Get (http.Header r) name, None), w);
     jwt_Parse := fun raw keyfunc =>
       if String.eqb raw "" then panic else parse raw [] keyfunc;
     jwt_ParseWithClaims := fun raw claims keyfunc =>
       if String.eqb raw "" then panic else parse raw claims keyfunc |}.

End demo.

(** ** Splitting and lowering *)

Lemma Split_not_nil s sep : strings.Split s sep <> [].
Proof.
  destruct s as [|c s]; simpl; [discriminate|].
  destruct (Ascii.eqb c sep); [discriminate|].
  destruct (strings.Split s sep); discriminate.
Qed.

Lemma Split_length s sep :
  length (strings.Split s sep) = S (strings.count sep s).
Proof.
  induction s as [|c s IH]; simpl; [reflexivity|].
  destruct (Ascii.eqb c sep); simpl.
  - now rewrite IH.
  - destruct (strings.Split s sep) as [|p ps] eqn:E; simpl in *; [discriminate|].
    exact IH.
Qed.

Lemma Split_lacks s sep :
  strings.lacks sep s = true -> strings.Split s sep = [s].
Proof.
  induction s as [|c s IH]; simpl; [reflexivity|].
  intros H. apply andb_prop in H as [Hc Hs].
  apply negb_true_iff in Hc. rewrite Hc, (IH Hs). reflexivity.
Qed.

Lemma Split_app s t sep :
  strings.lacks sep s = true ->
  strings.Split (s ++ String sep t) sep = s :: strings.Split t sep.
Proof.
  induction s as [|c s IH]; simpl.
  - intros _. now rewrite Ascii.eqb_refl.
  - intros H. apply andb_prop in H as [Hc Hs].
    apply negb_true_iff in Hc. rewrite Hc, (IH Hs). reflexivity.
Qed.

Lemma Split_pair_inv s sep a b :
  strings.Split s sep = [a; b] ->
  s = a ++ String sep b /\
  strings.lacks sep a = true /\ strings.lacks sep b = true.
Proof.
  revert a. induction s as [|c s IH]; intros a; simpl; [discriminate|].
  destruct (Ascii.eqb_spec c sep) as [->|Hne].
  - intros E. injection E as <- E.
    assert (Hlen : length (strings.Split s sep) = 1) by now rewrite E.
    rewrite Split_length in Hlen.
    assert (Hb : strings.lacks sep s = true).
    { clear -Hlen. induction s as [|d s IH]; simpl in *; [reflexivity|].
      destruct (Ascii.eqb d sep); simpl in *; [lia|]. apply IH. lia. }
    rewrite (Split_lacks _ _ Hb) in E. injection E as <-.
    repeat split; auto.
  - destruct (strings.Split s sep) as [|p ps] eqn:E; [discriminate|].
    intros E'. injection E' as <- ->.
    destruct (IH p eq_refl) as (-> & Hp & Hb).
    repeat split; auto. simpl.
    rewrite Hp. apply Ascii.eqb_neq in Hne. now rewrite Hne.
Qed.

Lemma lower_byte_space c : strings.lower_byte c = strings.space -> c = strings.space.
Proof.
  destruct c as [[] [] [] [] [] [] [] []]; vm_compute; intros H;
    first [reflexivity | discriminate H].
Qed.

Lemma ToLower_lacks_space s :
  strings.lacks strings.space (strings.ToLower s) = true ->
  strings.lacks strings.space s = true.
Proof.
  induction s as [|c s IH]; simpl; [reflexivity|].
  intros H. apply andb_prop in H as [Hc Hs]. rewrite (IH Hs), andb_true_r.
  apply negb_true_iff, Ascii.eqb_neq. apply negb_true_iff, Ascii.eqb_neq in Hc.
  intros ->. apply Hc. reflexivity.
Qed.

Lemma bearer_lacks_space scheme :
  strings.ToLower scheme = "bearer" -> strings.lacks strings.space scheme = true.
Proof. intros H. apply ToLower_lacks_space. now rewrite H. Qed.

Lemma bearer_shape_Split header :
  bearer_shape header <->
  length (strings.Split header strings.space) = 2 /\
  strings.ToLower (nth 0 (strings.Split header strings.space) "") = "bearer".
Proof.
  split.
  - intros (scheme & value & -> & Hs & Hv & Hlow).
    change (scheme ++ " " ++ value) with (scheme ++ String strings.space value).
    rewrite (Split_app _ _ _ Hs), (Split_lacks _ _ Hv). now split.
  - intros [Hlen Hlow].
    destruct (strings.Split header strings.space) as [|a [|b [|]]] eqn:E;
      try discriminate Hlen.
    apply Split_pair_inv in E as (-> & Ha & Hb).
    exists a, b. repeat split; auto.
Qed.

(** ** The extractor *)

Lemma String_eqb_empty s : s <> "" -> String.eqb s "" = false.
Proof. intros H. now apply String.eqb_neq. Qed.

Lemma FromAuthHeader_silent r :
  http.Header_Get (http.Header r) "Authorization" = "" ->
  FromAuthHeader r = ("", None).
Proof. unfold FromAuthHeader. intros ->. reflexivity. Qed.

Lemma Header_Get_absent (h : gmap string (list string)) key :
  h !! key = None -> http.Header_Get h key = "".
Proof. unfold http.Header_Get. now intros ->. Qed.

Lemma FromAuthHeader_parts r :
  let header := http.Header_Get (http.Header r) "Authorization" in
  let parts := strings.Split header strings.space in
  header <> "" ->
  FromAuthHeader r =
    if bool_decide (length parts = 2 /\
                    strings.ToLower (nth 0 parts "") = "bearer")
    then (nth 1 parts "", None)
    else ("", Some format_error).
Proof.
  intros header parts Hne. unfold FromAuthHeader. fold header. fold parts.
  rewrite (String_eqb_empty _ Hne).
  destruct (Nat.eqb_spec (length parts) 2) as [Hlen|Hlen];
    destruct (String.eqb_spec (strings.ToLower (nth 0 parts "")) "bearer")
      as [Hlow|Hlow]; simpl.
  - rewrite bool_decide_eq_true_2; auto.
  - rewrite bool_decide_eq_false_2; tauto.
  - rewrite bool_decide_eq_false_2; tauto.
  - rewrite bool_decide_eq_false_2; tauto.
Qed.

Lemma FromAuthHeader_bearer r scheme value :
  http.Header_Get (http.Header r) "Authorization" = scheme ++ " " ++ value ->
  strings.ToLower scheme = "bearer" ->
  strings.lacks strings.space value = true ->
  FromAuthHeader r = (value, None).
Proof.
  intros Hh Hlow Hv.
  assert (Hne : http.Header_Get (http.Header r) "Authorization" <> "").
  { rewrite Hh. destruct scheme; discriminate. }
  rewrite (FromAuthHeader_parts r Hne), Hh.
  change (scheme ++ " " ++ value) with (scheme ++ String strings.space value).
  rewrite (Split_app _ _ _ (bearer_lacks_space _ Hlow)), (Split_lacks _ _ Hv).
  simpl. rewrite bool_decide_eq_true_2; auto.
Qed.

(** ** Running the package's functions *)

Section Facts.

Context {claims_t keyfunc_t closure_t env_t : Type}.
Context {lib : Library claims_t keyfunc_t closure_t env_t}.

Local Abbreviation Options := (Options keyfunc_t closure_t).
Local Abbreviation World := (World keyfunc_t closure_t env_t).
Local Abbreviation M := (M keyfunc_t closure_t env_t).
Local Abbreviation Token := (jwt.Token claims_t).

Implicit Types (m : Core) (r : http.Request) (w : World) (o : Options).

Lemma bind_Ret {A B} (c : M A) (k : A -> M B) w a w1 :
  c w = (Ret a, w1) -> bind c k w = k a w1.
Proof. unfold bind. now intros ->. Qed.

Lemma bind_Panic {A B} (c : M A) (k : A -> M B) w w1 :
  c w = (Panic, w1) -> bind c k w = (Panic, w1).
Proof. unfold bind. now intros ->. Qed.

Lemma bind_Ret_inv {A B} (c : M A) (k : A -> M B) w b w2 :
  bind c k w = (Ret b, w2) ->
  exists a w1, c w = (Ret a, w1) /\ k a w1 = (Ret b, w2).
Proof.
  unfold bind. destruct (c w) as [[a|] w1]; [eauto | discriminate].
Qed.

Lemma deref_at m w o :
  options_at m w o -> deref (Core_Options m) w = (Ret o, w).
Proof. intros (l & -> & H). unfold deref. now rewrite H. Qed.

Lemma deref_Ret_inv m w o w1 :
  deref (Core_Options m) w = (Ret o, w1) -> w1 = w /\ options_at m w o.
Proof.
  unfold deref, options_at. destruct (Core_Options m) as [l|]; [|discriminate].
  destruct (store w !! l) as [o'|] eqn:E; [|discriminate].
  intros [= <- <-]. eauto.
Qed.

Lemma options_at_fun m w o o' : options_at m w o -> options_at m w o' -> o = o'.
Proof. intros (l & Hl & H) (l' & Hl' & H'). congruence. Qed.

Lemma rawToken_extracts m r w raw w1 :
  extracts m r w raw w1 -> rawToken m r w = (Ret (raw, None), w1).
Proof.
  intros (o & f & Ho & Hf & Hcall & Hraw). unfold rawToken.
  rewrite (bind_Ret _ _ _ _ _ (deref_at _ _ _ Ho)), Hf.
  rewrite (bind_Ret _ _ _ _ _ Hcall). simpl.
  now rewrite (String_eqb_empty _ Hraw).
Qed.

Lemma rawToken_empty m r w o f w1 :
  options_at m w o -> Extractor o = Some f ->
  call_extractor f r w = (Ret ("", None), w1) ->
  rawToken m r w = (Ret ("", Some "Token not found"), w1).
Proof.
  intros Ho Hf Hcall. unfold rawToken.
  rewrite (bind_Ret _ _ _ _ _ (deref_at _ _ _ Ho)), Hf.
  now rewrite (bind_Ret _ _ _ _ _ Hcall).
Qed.

Lemma rawToken_Ret_inv m r w raw w1 :
  rawToken m r w = (Ret (raw, None), w1) -> extracts m r w raw w1.
Proof.
  unfold rawToken. intros H.
  apply bind_Ret_inv in H as (o & w0 & Hd & H).
  apply deref_Ret_inv in Hd as [-> Ho].
  destruct (Extractor o) as [f|] eqn:Hf; [|discriminate].
  apply bind_Ret_inv in H as ([raw' [e|]] & w' & Hcall & H); [discriminate|].
  destruct (String.eqb_spec raw' ""); [discriminate|].
  injection H as <- <-. exists o, f. auto.
Qed.

Lemma iface_eq_string_spec s v : iface_eq_string s v = true <-> v = IString s.
Proof.
  destruct v as [|t|t]; simpl; try (split; discriminate).
  rewrite String.eqb_eq. split; [now intros -> | now intros [= ->]].
Qed.

Lemma validateToken_run m w method (tok : Token) :
  expects m w method ->
  validateToken m (Some tok) w =
    (Ret (if iface_eq_string (jwt.Alg method) (map_index (jwt.Header tok) "alg")
          then None
          else Some ("Invalid token algorithm. Wanted " ++ jwt.Alg method
                     ++ ", got " ++ Sprint_s (map_index (jwt.Header tok) "alg"))),
     w).
Proof.
  intros (o & Ho & Hs). unfold validateToken.
  rewrite (bind_Ret _ _ _ _ _ (deref_at _ _ _ Ho)), Hs.
  now destruct (iface_eq_string _ _).
Qed.

Lemma validateToken_accepts_inv m (token : option Token) w w1 :
  validateToken m token w = (Ret None, w1) ->
  w1 = w /\
  exists tok method,
    token = Some tok /\ expects m w method /\
    map_index (jwt.Header tok) "alg" = IString (jwt.Alg method).
Proof.
  unfold validateToken. intros H.
  apply bind_Ret_inv in H as (o & w0 & Hd & H).
  apply deref_Ret_inv in Hd as [-> Ho].
  destruct (SigningMethod o) as [method|] eqn:Hs; [|discriminate].
  destruct token as [tok|]; [|discriminate].
  destruct (iface_eq_string _ _) eqn:E; [|discriminate].
  injection H as <-. split; [reflexivity|].
  exists tok, method. repeat split; [exists o; auto|].
  now apply iface_eq_string_spec.
Qed.

(** Both entry points are the pipeline of the specification, run with
    their own parse routine. *)
Lemma Get_pipeline m r w :
  Get m r w = validate_with jwt_Parse m r w.
Proof.
  unfold Get, validate_with, bind.
  destruct (rawToken m r w) as [[[raw [e|]]|] w1]; simpl; try reflexivity.
  destruct (deref (Core_Options m) w1) as [[o|] w1']; try reflexivity.
  destruct (jwt_Parse raw (Keyfunc o) w1') as [[[token [e|]]|] w2];
    reflexivity.
Qed.

Lemma GetWithClaims_pipeline m r claims w :
  GetWithClaims m r claims w =
  validate_with (fun raw keyfunc => jwt_ParseWithClaims raw claims keyfunc) m r w.
Proof.
  unfold GetWithClaims, validate_with, bind.
  destruct (rawToken m r w) as [[[raw [e|]]|] w1]; simpl; try reflexivity.
  destruct (deref (Core_Options m) w1) as [[o|] w1']; try reflexivity.
  destruct (jwt_ParseWithClaims raw claims (Keyfunc o) w1')
    as [[[token [e|]]|] w2]; reflexivity.
Qed.

Section Pipeline.

Variable parse : string -> option keyfunc_t -> M (parsed claims_t).

Lemma validate_with_not_found m r w o f w1 :
  options_at m w o -> Extractor o = Some f ->
  call_extractor f r w = (Ret ("", None), w1) ->
  validate_with parse m r w = (Ret (None, Some "Token not found"), w1).
Proof.
  intros Ho Hf Hcall. unfold validate_with.
  now rewrite (bind_Ret _ _ _ _ _ (rawToken_empty _ _ _ _ _ _ Ho Hf Hcall)).
Qed.

Lemma validate_with_parsed m r w raw w1 o1 result w2 :
  extracts m r w raw w1 -> options_at m w1 o1 ->
  parse raw (Keyfunc o1) w1 = (Ret result, w2) ->
  validate_with parse m r w =
    match snd result with
    | Some cause => (Ret (None, Some ("Error parsing token: " ++ cause)), w2)
    | None =>
        bind (validateToken m (fst result))
          (fun verdict =>
             match verdict with
             | Some mismatch => ret (None, Some mismatch)
             | None => ret (fst result, None)
             end) w2
    end.
Proof.
  intros Hx Ho Hp. unfold validate_with.
  rewrite (bind_Ret _ _ _ _ _ (rawToken_extracts _ _ _ _ _ Hx)). simpl.
  rewrite (bind_Ret _ _ _ _ _ (deref_at _ _ _ Ho)).
  rewrite (bind_Ret _ _ _ _ _ Hp).
  now destruct (snd result).
Qed.

Lemma validate_with_rejected m r w cause w2 :
  rejected_by parse m r w cause w2 ->
  validate_with parse m r w =
    (Ret (None, Some ("Error parsing token: " ++ cause)), w2).
Proof.
  intros (raw & w1 & o1 & tok & Hx & Ho & Hp).
  now rewrite (validate_with_parsed _ _ _ _ _ _ _ _ Hx Ho Hp).
Qed.

Lemma validate_with_mismatch m r w tok w2 method :
  verified_by parse m r w tok w2 -> expects m w2 method ->
  map_index (jwt.Header tok) "alg" <> IString (jwt.Alg method) ->
  validate_with parse m r w =
    (Ret (None,
          Some ("Invalid token algorithm. Wanted " ++ jwt.Alg method
                ++ ", got " ++ Sprint_s (map_index (jwt.Header tok) "alg"))),
     w2).
Proof.
  intros (raw & w1 & o1 & Hx & Ho & Hp) He Hne.
  rewrite (validate_with_parsed _ _ _ _ _ _ _ _ Hx Ho Hp). simpl.
  rewrite (bind_Ret _ _ _ _ _ (validateToken_run _ _ _ _ He)).
  destruct (iface_eq_string _ _) eqn:E; [|reflexivity].
  now apply iface_eq_string_spec in E.
Qed.

Lemma validate_with_token_inv m r w tok err w2 :
  validate_with parse m r w = (Ret (Some tok, err), w2) ->
  err = None /\ verified_by parse m r w tok w2 /\
  exists method,
    expects m w2 method /\
    map_index (jwt.Header tok) "alg" = IString (jwt.Alg method).
Proof.
  unfold validate_with. intros H.
  apply bind_Ret_inv in H as ([raw [e|]] & w1 & Hraw & H); simpl in H;
    [discriminate|].
  apply rawToken_Ret_inv in Hraw.
  apply bind_Ret_inv in H as (o1 & w1' & Hd & H).
  apply deref_Ret_inv in Hd as [-> Ho].
  apply bind_Ret_inv in H as ([token [e|]] & w2' & Hp & H); simpl in H;
    [discriminate|].
  apply bind_Ret_inv in H as ([e|] & w3 & Hv & H); [discriminate|].
  apply validateToken_accepts_inv in Hv as (-> & tok' & method & -> & He & Ha).
  injection H as -> <- <-.
  split; [reflexivity|]. split; [exists raw, w1, o1; auto|].
  exists method. auto.
Qed.

End Pipeline.

End Facts.

(** ** Writes to the store *)

Section Store.

Context {claims_t keyfunc_t closure_t env_t : Type}.
Context {lib : Library claims_t keyfunc_t closure_t env_t}.

Local Abbreviation Options := (Options keyfunc_t closure_t).
Local Abbreviation World := (World keyfunc_t closure_t env_t).
Local Abbreviation M := (M keyfunc_t closure_t env_t).

Implicit Types (m : Core) (r : http.Request) (w : World) (o : Options).

Lemma with_options_same w l o :
  store w !! l = Some o -> with_options w l o = w.
Proof.
  intros H. destruct w as [s e]. unfold with_options. simpl in *.
  now rewrite (insert_id s l o H).
Qed.

Lemma with_options_twice w l o o' :
  with_options (with_options w l o) l o' = with_options w l o'.
Proof. unfold with_options. simpl. now rewrite insert_insert_eq. Qed.

Lemma assign_run w l o o' :
  store w !! l = Some o ->
  assign (env_t := env_t) (Some l) o' w = (Ret tt, with_options w l o').
Proof. intros H. unfold assign. now rewrite H. Qed.

Lemma New_run w l o :
  store w !! l = Some o ->
  New (Some l) w =
    (Ret {| Core_Options := Some l |}, with_options w l (with_defaults o)).
Proof.
  intros H. rewrite <- (with_options_same _ _ _ H) at 1.
  destruct o as [k [f|] [s|]];
    unfold New, set_Extractor, set_SigningMethod, bind, deref, assign, ret,
      with_defaults, with_options; simpl;
    repeat (rewrite ?lookup_insert_eq, ?H, ?insert_insert_eq; simpl);
    reflexivity.
Qed.

Section Frame.

Variable R : relation World.
Hypothesis R_refl : forall w, R w w.
Hypothesis R_trans : forall w1 w2 w3, R w1 w2 -> R w2 w3 -> R w1 w3.

Lemma stays_ret {A} (a : A) : stays_in R (ret (env_t := env_t) a).
Proof. intros w. apply R_refl. Qed.

Lemma stays_panic {A} : stays_in R (panic (A := A) (env_t := env_t)).
Proof. intros w. apply R_refl. Qed.

Lemma stays_deref p : stays_in R (deref (env_t := env_t) p).
Proof.
  intros w. unfold deref. destruct p as [l|]; [|apply R_refl].
  destruct (store w !! l); apply R_refl.
Qed.

Lemma stays_bind {A B} (c : M A) (k : A -> M B) :
  stays_in R c -> (forall a, stays_in R (k a)) -> stays_in R (bind c k).
Proof.
  intros Hc Hk w. unfold bind. specialize (Hc w).
  destruct (c w) as [[a|] w1]; simpl in *; [|exact Hc].
  eapply R_trans; [exact Hc | apply Hk].
Qed.

Hypothesis closures_stay : forall f r, stays_in R (call_closure f r).

Lemma stays_call_extractor f r : stays_in R (call_extractor f r).
Proof. destruct f; simpl; [apply stays_ret | apply closures_stay]. Qed.

Lemma stays_rawToken m r : stays_in R (rawToken m r).
Proof.
  unfold rawToken. apply stays_bind; [apply stays_deref|]. intros o.
  destruct (Extractor o); [|apply stays_panic].
  apply stays_bind; [apply stays_call_extractor|]. intros [raw [e|]].
  - apply stays_ret.
  - destruct (String.eqb raw ""); apply stays_ret.
Qed.

Lemma stays_validateToken m (token : option (jwt.Token claims_t)) :
  stays_in R (validateToken m token).
Proof.
  unfold validateToken. apply stays_bind; [apply stays_deref|]. intros o.
  destruct (SigningMethod o); [|apply stays_panic].
  destruct token; [|apply stays_panic].
  destruct (negb _); apply stays_ret.
Qed.

Lemma stays_Get m r :
  (forall raw keyfunc, stays_in R (jwt_Parse raw keyfunc)) ->
  stays_in R (Get m r).
Proof.
  intros Hp. unfold Get.
  apply stays_bind; [apply stays_rawToken|]. intros [raw [e|]].
  - apply stays_ret.
  - apply stays_bind; [apply stays_deref|]. intros o.
    apply stays_bind; [apply Hp|]. intros [token [e|]].
    + apply stays_ret.
    + apply stays_bind; [apply stays_validateToken|].
      intros [e|]; apply stays_ret.
Qed.

Lemma stays_GetWithClaims m r claims :
  (forall raw keyfunc, stays_in R (jwt_ParseWithClaims raw claims keyfunc)) ->
  stays_in R (GetWithClaims m r claims).
Proof.
  intros Hp. unfold GetWithClaims.
  apply stays_bind; [apply stays_rawToken|]. intros [raw [e|]].
  - apply stays_ret.
  - apply stays_bind; [apply stays_deref|]. intros o.
    apply stays_bind; [apply Hp|]. intros [token [e|]].
    + apply stays_ret.
    + apply stays_bind; [apply stays_validateToken|].
      intros [e|]; apply stays_ret.
Qed.

End Frame.

End Store.

(** ** The default extractor on present headers *)

(** C2.  A non-empty [Authorization] value that does not split on the space
    into exactly two parts, or whose first part lowered is not "bearer"
    (equivalently: that is not a scheme spelling "bearer" in some case, one
    space, and a value without a space), makes [FromAuthHeader] fail with the
    format error, whose text shows the shape 'Bearer <token>'.  "Token
    abc.def.ghi" is refused and "bearer abc.def.ghi" yields its token. *)
Theorem FromAuthHeader_rejects_malformed :
  (forall r,
     let header := http.Header_Get (http.Header r) "Authorization" in
     let parts := strings.Split header strings.space in
     header <> "" ->
     length parts <> 2 \/ strings.ToLower (nth 0 parts "") <> "bearer" ->
     FromAuthHeader r = ("", Some format_error)) /\
  (forall r,
     let header := http.Header_Get (http.Header r) "Authorization" in
     header <> "" -> ~ bearer_shape header ->
     FromAuthHeader r = ("", Some format_error)) /\
  FromAuthHeader (demo.request "Token abc.def.ghi") = ("", Some format_error) /\
  FromAuthHeader (demo.request "bearer abc.def.ghi") = ("abc.def.ghi", None) /\
  format_error = "Authorization header format must be '" ++ "Bearer <token>" ++ "'".
Proof.
  assert (Hparts : forall r,
    let header := http.Header_Get (http.Header r) "Authorization" in
    let parts := strings.Split header strings.space in
    header <> "" ->
    length parts <> 2 \/ strings.ToLower (nth 0 parts "") <> "bearer" ->
    FromAuthHeader r = ("", Some format_error)).
  { intros r header parts Hne Hbad.
    rewrite (FromAuthHeader_parts r Hne). fold header. fold parts.
    rewrite bool_decide_eq_false_2; [reflexivity | tauto]. }
  split; [exact Hparts|]. split; [|repeat split].
  intros r header Hne Hshape. apply Hparts; [exact Hne|]. fold header.
  rewrite bearer_shape_Split in Hshape.
  destruct (Nat.eq_dec (length (strings.Split header strings.space)) 2) as [Hl|Hl];
    [right | left; exact Hl].
  intros Hlow. apply Hshape. now split.
Qed.

(** C4.  On "Bearer " followed by a token without a space, [FromAuthHeader]
    returns that token as it stands and no error. *)
Theorem FromAuthHeader_returns_token r token :
  http.Header_Get (http.Header r) "Authorization" = "Bearer " ++ token ->
  strings.lacks strings.space token = true ->
  FromAuthHeader r = (token, None).
Proof.
  intros Hh Htok.
  apply (FromAuthHeader_bearer r "Bearer" token); [exact Hh | reflexivity | exact Htok].
Qed.

(** ** The entry points *)

Section Claims.

Context {claims_t keyfunc_t closure_t env_t : Type}.
Context {lib : Library claims_t keyfunc_t closure_t env_t}.

Local Abbreviation Options := (Options keyfunc_t closure_t).
Local Abbreviation World := (World keyfunc_t closure_t env_t).
Local Abbreviation M := (M keyfunc_t closure_t env_t).
Local Abbreviation Token := (jwt.Token claims_t).

Implicit Types (m : Core) (r : http.Request) (w : World) (o : Options).
Implicit Types (claims : claims_t) (tok : Token).

(** [GetWithClaims] hands [claims] to its parse routine. *)
Local Abbreviation with_claims claims :=
  (fun raw keyfunc => jwt_ParseWithClaims raw claims keyfunc).

(** C1.  When the token returned by the parse routine carries under "alg"
    anything but the string [Alg()] of the configured signing method,
    [validateToken] answers with the mismatch error, which spells the
    expected identifier and the received value, and [Get] and
    [GetWithClaims] return that error and no token. *)
Theorem algorithm_mismatch_rejected m r claims w tok w2 method :
  expects m w2 method ->
  map_index (jwt.Header tok) "alg" <> IString (jwt.Alg method) ->
  let mismatch :=
    "Invalid token algorithm. Wanted " ++ jwt.Alg method ++ ", got "
    ++ Sprint_s (map_index (jwt.Header tok) "alg") in
  validateToken m (Some tok) w2 = (Ret (Some mismatch), w2) /\
  (verified_by jwt_Parse m r w tok w2 ->
   Get m r w = (Ret (None, Some mismatch), w2)) /\
  (verified_by (with_claims claims) m r w tok w2 ->
   GetWithClaims m r claims w = (Ret (None, Some mismatch), w2)) /\
  (forall received,
     jwt.Header tok !! "alg" = Some (IString received) ->
     mismatch = "Invalid token algorithm. Wanted " ++ jwt.Alg method
                ++ ", got " ++ received).
Proof.
  intros He Hne mismatch. repeat split.
  - rewrite (validateToken_run _ _ _ _ He).
    destruct (iface_eq_string _ _) eqn:E; [|reflexivity].
    now apply iface_eq_string_spec in E.
  - intros Hv. rewrite Get_pipeline.
    now apply validate_with_mismatch.
  - intros Hv. rewrite GetWithClaims_pipeline.
    now apply validate_with_mismatch.
  - intros received Hr. unfold mismatch, map_index. now rewrite Hr.
Qed.

(** C3.  Without an [Authorization] header, or with an empty one,
    [FromAuthHeader] returns the empty string and no error; and whenever
    the configured extractor returns the empty string and no error, [Get]
    and [GetWithClaims] fail with "Token not found", a text that none of
    the other errors of the package has. *)
Theorem absent_token_not_found r :
  (http.Header r !! "Authorization" = None ->
   http.Header_Get (http.Header r) "Authorization" = "") /\
  (http.Header_Get (http.Header r) "Authorization" = "" ->
   FromAuthHeader r = ("", None)) /\
  (forall m w o f w1,
     options_at m w o -> Extractor o = Some f ->
     call_extractor f r w = (Ret ("", None), w1) ->
     Get m r w = (Ret (None, Some "Token not found"), w1) /\
     forall claims,
       GetWithClaims m r claims w = (Ret (None, Some "Token not found"), w1)) /\
  (forall m w o,
     options_at m w o -> Extractor o = Some ExtFromAuthHeader ->
     http.Header_Get (http.Header r) "Authorization" = "" ->
     Get m r w = (Ret (None, Some "Token not found"), w) /\
     forall claims,
       GetWithClaims m r claims w = (Ret (None, Some "Token not found"), w)) /\
  "Token not found" <> format_error /\
  (forall cause, "Token not found" <> "Error extracting token: " ++ cause) /\
  (forall cause, "Token not found" <> "Error parsing token: " ++ cause) /\
  (forall expected received,
     "Token not found" <> "Invalid token algorithm. Wanted " ++ expected
                          ++ ", got " ++ received).
Proof.
  assert (Hany : forall m w o f w1,
    options_at m w o -> Extractor o = Some f ->
    call_extractor f r w = (Ret ("", None), w1) ->
    Get m r w = (Ret (None, Some "Token not found"), w1) /\
    forall claims,
      GetWithClaims m r claims w = (Ret (None, Some "Token not found"), w1)).
  { intros m w o f w1 Ho Hf Hcall. split; [|intros claims].
    - rewrite Get_pipeline. eapply validate_with_not_found; eauto.
    - rewrite GetWithClaims_pipeline. eapply validate_with_not_found; eauto. }
  split; [apply Header_Get_absent|].
  split; [apply FromAuthHeader_silent|].
  split; [exact Hany|].
  split; [|repeat split; intros; discriminate].
  intros m w o Ho Hf Hh. apply (Hany m w o ExtFromAuthHeader w Ho Hf).
  simpl. unfold ret. now rewrite (FromAuthHeader_silent _ Hh).
Qed.

(** C5.  [New] on a struct that leaves the extractor, the signing method, or
    both nil leaves the very world, and returns the very core, that [New]
    leaves and returns on the struct with [FromAuthHeader] and
    [jwt.SigningMethodHS256] written in their place; so [Get] and
    [GetWithClaims] run after either construction give the same outcome in
    the same world, on every request and claims value.  Only those two
    fields are filled: the key function is stored as given, nil included. *)
Theorem New_defaults_as_explicit w l o :
  let explicit : Options :=
    {| Keyfunc := Keyfunc o;
       Extractor := Some (default ExtFromAuthHeader (Extractor o));
       SigningMethod := Some (default jwt.SigningMethodHS256 (SigningMethod o)) |} in
  let core := {| Core_Options := Some l |} in
  New (Some l) (with_options w l o) = (Ret core, with_options w l explicit) /\
  New (Some l) (with_options w l explicit) = (Ret core, with_options w l explicit) /\
  (forall r,
     bind (New (Some l)) (fun m => Get m r) (with_options w l o) =
     bind (New (Some l)) (fun m => Get m r) (with_options w l explicit)) /\
  (forall r claims,
     bind (New (Some l)) (fun m => GetWithClaims m r claims) (with_options w l o) =
     bind (New (Some l)) (fun m => GetWithClaims m r claims)
       (with_options w l explicit)) /\
  (forall o', store (with_options w l explicit) !! l = Some o' ->
              Keyfunc o' = Keyfunc o).
Proof.
  intros explicit core.
  assert (Hgiven :
    New (Some l) (with_options w l o) = (Ret core, with_options w l explicit)).
  { rewrite (New_run _ l o) by (simpl; apply lookup_insert_eq).
    now rewrite with_options_twice. }
  assert (Hexplicit :
    New (Some l) (with_options w l explicit) = (Ret core, with_options w l explicit)).
  { rewrite (New_run _ l explicit) by (simpl; apply lookup_insert_eq).
    now rewrite with_options_twice. }
  split; [exact Hgiven|]. split; [exact Hexplicit|].
  split; [|split].
  - intros r. now rewrite (bind_Ret _ _ _ _ _ Hgiven), (bind_Ret _ _ _ _ _ Hexplicit).
  - intros r claims.
    now rewrite (bind_Ret _ _ _ _ _ Hgiven), (bind_Ret _ _ _ _ _ Hexplicit).
  - intros o'. simpl. rewrite lookup_insert_eq. now intros [= <-].
Qed.

(** C6.  Once a non-empty raw token is extracted, an error from the parse
    routine makes [Get] and [GetWithClaims] return "Error parsing token: "
    followed by the text of that error, and no token.  This holds whatever
    token came with the error and whatever signing method is configured,
    none at all included: [validateToken], which would panic or produce a
    mismatch error, has no part in the result. *)
Theorem parse_failure_wrapped m r claims w cause w2 :
  (rejected_by jwt_Parse m r w cause w2 ->
   Get m r w = (Ret (None, Some ("Error parsing token: " ++ cause)), w2)) /\
  (rejected_by (with_claims claims) m r w cause w2 ->
   GetWithClaims m r claims w =
     (Ret (None, Some ("Error parsing token: " ++ cause)), w2)) /\
  (forall expected received,
     "Error parsing token: " ++ cause <>
     "Invalid token algorithm. Wanted " ++ expected ++ ", got " ++ received).
Proof.
  split; [|split].
  - intros H. rewrite Get_pipeline. now apply validate_with_rejected.
  - intros H. rewrite GetWithClaims_pipeline. now apply validate_with_rejected.
  - intros expected received. discriminate.
Qed.

Lemma validateToken_alike m (ta tb : option Token) (wa wb : World) :
  store wa = store wb ->
  match ta, tb with
  | Some a, Some b =>
      map_index (jwt.Header a) "alg" = map_index (jwt.Header b) "alg"
  | None, None => True
  | _, _ => False
  end ->
  validateToken m ta wa = (fst (validateToken m tb wb), wa) /\
  snd (validateToken m tb wb) = wb.
Proof.
  intros Hs Ht. unfold validateToken, bind, deref. rewrite Hs.
  destruct (Core_Options m) as [l|]; [|now split].
  destruct (store wb !! l) as [o|]; [|now split].
  destruct (SigningMethod o) as [method|]; [|now split].
  destruct ta as [a|], tb as [b|]; try contradiction; [|now split].
  rewrite Ht. now destruct (iface_eq_string _ _).
Qed.

(** C7.  [Get] is the pipeline of the specification over [jwt.Parse] and
    [GetWithClaims] is the same pipeline over [jwt.ParseWithClaims] given
    the claims: extraction, the empty-token check, the wrapping of errors
    and the algorithm check are shared.  A failure to obtain the raw token
    is returned alike by both, and where the two parse routines return the
    same the two entry points return the same outcome in the same world.
    For a claims container that the parse routine fills, so that the tokens
    differ: whenever, on the extracted token and the configured key
    function, the two parse routines agree (both panic, or both return the
    same error, or both return a token, with the same value under "alg",
    leaving the same [Options] structs), the two entry points agree in the
    same way: both panic, or both return the same error and no token, or
    both return a token and no error. *)
Theorem GetWithClaims_as_Get m r claims w :
  Get m r w = validate_with jwt_Parse m r w /\
  GetWithClaims m r claims w = validate_with (with_claims claims) m r w /\
  (forall raw failure w1,
     rawToken m r w = (Ret (raw, Some failure), w1) ->
     Get m r w = (Ret (None, Some failure), w1) /\
     GetWithClaims m r claims w = (Ret (None, Some failure), w1)) /\
  ((forall raw keyfunc w1,
      jwt_ParseWithClaims raw claims keyfunc w1 = jwt_Parse raw keyfunc w1) ->
   GetWithClaims m r claims w = Get m r w) /\
  ((forall raw w1 o1,
      extracts m r w raw w1 -> options_at m w1 o1 ->
      runs_alike (jwt_ParseWithClaims raw claims (Keyfunc o1) w1)
                 (jwt_Parse raw (Keyfunc o1) w1)) ->
   runs_alike (GetWithClaims m r claims w) (Get m r w) /\
   (forall token token' err err' w' w'',
      GetWithClaims m r claims w = (Ret (token, err), w') ->
      Get m r w = (Ret (token', err'), w'') ->
      err = err' /\ (token = None <-> token' = None))).
Proof.
  split; [apply Get_pipeline|]. split; [apply GetWithClaims_pipeline|].
  split; [|split].
  - intros raw failure w1 H. unfold Get, GetWithClaims.
    now rewrite !(bind_Ret _ _ _ _ _ H).
  - intros Hagree. unfold Get, GetWithClaims, bind.
    destruct (rawToken m r w) as [[[raw [e|]]|] w1]; try reflexivity.
    destruct (deref (Core_Options m) w1) as [[o|] w1']; try reflexivity.
    now rewrite Hagree.
  - intros Hagree.
    assert (Hruns : runs_alike (GetWithClaims m r claims w) (Get m r w)).
    { unfold Get, GetWithClaims, bind.
      destruct (rawToken m r w) as [[[raw [e|]]|] w1] eqn:Hraw;
        try (repeat split; reflexivity).
      apply rawToken_Ret_inv in Hraw.
      destruct (deref (Core_Options m) w1) as [[o1|] w1'] eqn:Hd;
        try (repeat split; reflexivity).
      apply deref_Ret_inv in Hd as [-> Ho].
      specialize (Hagree raw w1 o1 Hraw Ho).
      destruct (jwt_ParseWithClaims raw claims (Keyfunc o1) w1)
        as [[[ta [ea|]]|] wa];
        destruct (jwt_Parse raw (Keyfunc o1) w1) as [[[tb [eb|]]|] wb];
        destruct Hagree as (Hs & Hout); simpl in Hs, Hout;
        try contradiction; try (apply proj1 in Hout; discriminate Hout);
        try (split; [exact Hs | exact I]).
      - destruct Hout as [Herr _]. injection Herr as ->.
        repeat split. exact Hs.
      - destruct Hout as [_ Ht].
        destruct (validateToken_alike m ta tb wa wb Hs Ht) as [Ha Hb].
        rewrite Ha.
        destruct (validateToken m tb wb) as [[[e|]|] wb'];
          simpl in Hb |- *; subst wb'; split; simpl; try exact Hs; try exact I.
        + now split.
        + split; [reflexivity | exact Ht]. }
    split; [exact Hruns|].
    intros token token' err err' w' w'' Hc Hg. rewrite Hc, Hg in Hruns.
    destruct Hruns as (_ & Herr & Ht). simpl in Herr, Ht. split; [exact Herr|].
    destruct token, token'; try contradiction; split; congruence.
Qed.

(** C8.  On a header made of a scheme spelling "bearer" in some case and
    one space with nothing behind it, [FromAuthHeader] returns the empty
    string and no error, so a core using it fails in [Get] and
    [GetWithClaims] with "Token not found", not with the format error,
    bare or wrapped by [rawToken]. *)
Theorem bearer_without_token r scheme :
  strings.ToLower scheme = "bearer" ->
  http.Header_Get (http.Header r) "Authorization" = scheme ++ " " ->
  FromAuthHeader r = ("", None) /\
  (forall m w o,
     options_at m w o -> Extractor o = Some ExtFromAuthHeader ->
     Get m r w = (Ret (None, Some "Token not found"), w) /\
     forall claims,
       GetWithClaims m r claims w = (Ret (None, Some "Token not found"), w)) /\
  "Token not found" <> format_error /\
  "Token not found" <> "Error extracting token: " ++ format_error.
Proof.
  intros Hlow Hh.
  assert (Hx : FromAuthHeader r = ("", None)).
  { apply (FromAuthHeader_bearer r scheme ""); auto. }
  split; [exact Hx|]. split; [|split; discriminate].
  intros m w o Ho Hf.
  assert (Hcall : call_extractor ExtFromAuthHeader r w = (Ret ("", None), w)).
  { simpl. unfold ret. now rewrite Hx. }
  split; [|intros claims].
  - rewrite Get_pipeline. eapply validate_with_not_found; eauto.
  - rewrite GetWithClaims_pipeline. eapply validate_with_not_found; eauto.
Qed.

(** C9.  A token whose header has no "alg" entry is answered by
    [validateToken] with the mismatch error (the received value printed as
    the nil interface), without a panic, and [Get] and [GetWithClaims]
    return that error for it.  With a signing method configured
    [validateToken] always returns, and returns no error exactly when the
    header stores under "alg" the string [Alg()] of that method; hence a
    token returned by [Get] or [GetWithClaims] has that entry. *)
Theorem missing_alg_rejected m r claims w tok w2 :
  (forall method,
     expects m w2 method -> jwt.Header tok !! "alg" = None ->
     let mismatch :=
       "Invalid token algorithm. Wanted " ++ jwt.Alg method
       ++ ", got %!s(<nil>)" in
     validateToken m (Some tok) w2 = (Ret (Some mismatch), w2) /\
     (verified_by jwt_Parse m r w tok w2 ->
      Get m r w = (Ret (None, Some mismatch), w2)) /\
     (verified_by (with_claims claims) m r w tok w2 ->
      GetWithClaims m r claims w = (Ret (None, Some mismatch), w2))) /\
  (forall method,
     expects m w2 method ->
     exists verdict,
       validateToken m (Some tok) w2 = (Ret verdict, w2) /\
       (verdict = None <->
        jwt.Header tok !! "alg" = Some (IString (jwt.Alg method)))) /\
  (forall err,
     Get m r w = (Ret (Some tok, err), w2) \/
     GetWithClaims m r claims w = (Ret (Some tok, err), w2) ->
     err = None /\
     exists method,
       expects m w2 method /\
       jwt.Header tok !! "alg" = Some (IString (jwt.Alg method))).
Proof.
  assert (Hentry : forall s,
    map_index (jwt.Header tok) "alg" = IString s <->
    jwt.Header tok !! "alg" = Some (IString s)).
  { intros s. unfold map_index.
    destruct (jwt.Header tok !! "alg") as [v|]; simpl; split;
      congruence. }
  split; [|split].
  - intros method He Hnone mismatch.
    assert (Hnil : map_index (jwt.Header tok) "alg" = INil).
    { unfold map_index. now rewrite Hnone. }
    assert (Hrun : validateToken m (Some tok) w2 = (Ret (Some mismatch), w2)).
    { rewrite (validateToken_run _ _ _ _ He), Hnil. reflexivity. }
    split; [exact Hrun|].
    split; intros Hv; [rewrite Get_pipeline | rewrite GetWithClaims_pipeline];
      rewrite (validate_with_mismatch _ _ _ _ _ _ _ Hv He);
      rewrite ?Hnil; try reflexivity; discriminate.
  - intros method He. rewrite (validateToken_run _ _ _ _ He).
    eexists. split; [reflexivity|]. rewrite <- Hentry.
    destruct (iface_eq_string _ _) eqn:E.
    + apply iface_eq_string_spec in E. tauto.
    + split; [discriminate|]. intros Heq.
      apply iface_eq_string_spec in Heq. congruence.
  - intros err [H|H];
      [rewrite Get_pipeline in H | rewrite GetWithClaims_pipeline in H];
      apply validate_with_token_inv in H as (-> & _ & method & He & Ha);
      (split; [reflexivity|]); exists method; split; auto; now apply Hentry.
Qed.

(** C10.  [New] writes through the pointer it is given: afterwards the
    struct at that address has both fields set (the defaults where they
    were nil, the key function and every other address and the rest of
    the world as before), so it differs from the struct the caller wrote
    whenever a field was nil, and the returned core holds that same
    address.  [Get] and [GetWithClaims] make no change of their own: any
    reflexive and transitive relation between worlds respected by the
    extractors of callers and by the parse routines is respected by them,
    and so, when those leave the store alone, the store is the same after
    the call. *)
Theorem New_writes_in_place :
  (forall w l o,
     store w !! l = Some o ->
     exists w',
       New (Some l) w = (Ret {| Core_Options := Some l |}, w') /\
       store w' !! l = Some (with_defaults o) /\
       Extractor (with_defaults o) <> None /\
       SigningMethod (with_defaults o) <> None /\
       Keyfunc (with_defaults o) = Keyfunc o /\
       (forall l', l' <> l -> store w' !! l' = store w !! l') /\
       env w' = env w /\
       (Extractor o = None \/ SigningMethod o = None ->
        store w' !! l <> store w !! l)) /\
  (forall (R : relation World),
     (forall w, R w w) ->
     (forall w1 w2 w3, R w1 w2 -> R w2 w3 -> R w1 w3) ->
     (forall f r, stays_in R (call_closure f r)) ->
     (forall raw keyfunc, stays_in R (jwt_Parse raw keyfunc)) ->
     (forall raw claims keyfunc,
        stays_in R (jwt_ParseWithClaims raw claims keyfunc)) ->
     forall m r claims,
       stays_in R (Get m r) /\ stays_in R (GetWithClaims m r claims)) /\
  ((forall f r, stays_in same_store (call_closure f r)) ->
   (forall raw keyfunc, stays_in same_store (jwt_Parse raw keyfunc)) ->
   (forall raw claims keyfunc,
      stays_in same_store (jwt_ParseWithClaims raw claims keyfunc)) ->
   forall m r claims w,
     store (snd (Get m r w)) = store w /\
     store (snd (GetWithClaims m r claims w)) = store w).
Proof.
  assert (Hframe : forall (R : relation World),
    (forall w, R w w) ->
    (forall w1 w2 w3, R w1 w2 -> R w2 w3 -> R w1 w3) ->
    (forall f r, stays_in R (call_closure f r)) ->
    (forall raw keyfunc, stays_in R (jwt_Parse raw keyfunc)) ->
    (forall raw claims keyfunc,
       stays_in R (jwt_ParseWithClaims raw claims keyfunc)) ->
    forall m r claims,
      stays_in R (Get m r) /\ stays_in R (GetWithClaims m r claims)).
  { intros R Hrefl Htrans Hc Hp Hpc m r claims. split.
    - now apply stays_Get.
    - apply stays_GetWithClaims; auto. }
  split; [|split; [exact Hframe|]].
  - intros w l o H. eexists. split; [exact (New_run w l o H)|]. simpl.
    split; [apply lookup_insert_eq|].
    split; [discriminate|]. split; [discriminate|]. split; [reflexivity|].
    split; [intros l' Hl'; now apply lookup_insert_ne|].
    split; [reflexivity|].
    rewrite lookup_insert_eq, H. intros Hnil Heq. injection Heq as Heq.
    rewrite <- Heq in Hnil. destruct Hnil; discriminate.
  - intros Hc Hp Hpc m r claims w.
    destruct (Hframe same_store) with (m := m) (r := r) (claims := claims)
      as [HG HC]; auto.
    + intros w0. reflexivity.
    + unfold same_store. intros w1 w2 w3 H12 H23. congruence.
    + split; [apply HG | apply HC].
Qed.

End Claims.

(** ** The theorems at work on the small library *)

Lemma demo_parse_same_store raw claims keyfunc :
  stays_in same_store (demo.parse raw claims keyfunc).
Proof.
  intros w. unfold same_store, demo.parse.
  destruct (strings.Split raw demo.dot) as [|a [|b [|c [|]]]]; try reflexivity.
  destruct keyfunc as [key|]; [|reflexivity].
  destruct (String.eqb c key); reflexivity.
Qed.

Lemma demo_options_at o raws : options_at demo.core (demo.seen raws o) o.
Proof. exists 0. split; reflexivity. Qed.

Lemma demo_extracts o token raws :
  Extractor o = Some ExtFromAuthHeader ->
  token <> "" ->
  strings.lacks strings.space token = true ->
  extracts (lib := demo.lib) demo.core (demo.request ("Bearer " ++ token))
    (demo.seen raws o) token (demo.seen raws o).
Proof.
  intros Hf Hne Hsp. exists o, ExtFromAuthHeader.
  split; [apply demo_options_at|]. split; [exact Hf|]. split; [|exact Hne].
  simpl. unfold ret. f_equal. f_equal.
  now apply (FromAuthHeader_bearer _ "Bearer" token).
Qed.

Lemma algorithm_mismatch_rejected_witness :
  let w2 := demo.seen ["RS256.p.k"] demo.explicit in
  let mismatch := "Invalid token algorithm. Wanted HS256, got RS256" in
  expects demo.core w2 jwt.SigningMethodHS256 /\
  map_index (jwt.Header (demo.token "RS256" "p" "k" [] true)) "alg"
    <> IString "HS256" /\
  Get (lib := demo.lib) demo.core (demo.request "Bearer RS256.p.k")
    (demo.world demo.explicit) = (Ret (None, Some mismatch), w2) /\
  GetWithClaims (lib := demo.lib) demo.core (demo.request "Bearer RS256.p.k") []
    (demo.world demo.explicit) = (Ret (None, Some mismatch), w2).
Proof.
  intros w2 mismatch.
  assert (He : expects demo.core w2 jwt.SigningMethodHS256).
  { exists demo.explicit. split; [apply demo_options_at | reflexivity]. }
  assert (Hne : map_index (jwt.Header (demo.token "RS256" "p" "k" [] true)) "alg"
                <> IString (jwt.Alg jwt.SigningMethodHS256)).
  { vm_compute. discriminate. }
  assert (Hx : extracts (lib := demo.lib) demo.core
                 (demo.request "Bearer RS256.p.k") (demo.world demo.explicit)
                 "RS256.p.k" (demo.world demo.explicit)).
  { apply (demo_extracts demo.explicit "RS256.p.k" []);
      [reflexivity | discriminate | reflexivity]. }
  destruct (algorithm_mismatch_rejected (lib := demo.lib) demo.core
              (demo.request "Bearer RS256.p.k") [] (demo.world demo.explicit)
              (demo.token "RS256" "p" "k" [] true) w2 jwt.SigningMethodHS256
              He Hne) as (_ & HG & HC & _).
  split; [exact He|]. split; [exact Hne|].
  split; [apply HG | apply HC];
    exists "RS256.p.k", (demo.world demo.explicit), demo.explicit;
    (split; [exact Hx|]); (split; [apply demo_options_at | reflexivity]).
Defined.

Lemma FromAuthHeader_rejects_malformed_witness :
  FromAuthHeader (demo.request "Basic dXNlcjpwYXNz") = ("", Some format_error) /\
  FromAuthHeader (demo.request "Bearer abc def") = ("", Some format_error) /\
  FromAuthHeader (demo.request "Bearer") = ("", Some format_error).
Proof.
  destruct FromAuthHeader_rejects_malformed as (Hparts & Hshape & _).
  split; [|split].
  - apply Hparts; [discriminate | right; vm_compute; discriminate].
  - apply Hparts; [discriminate | left; vm_compute; discriminate].
  - apply Hshape; [discriminate|].
    rewrite bearer_shape_Split. vm_compute. intros [H _]. discriminate H.
Defined.

Lemma FromAuthHeader_returns_token_witness :
  FromAuthHeader (demo.request "Bearer abc.def.ghi") = ("abc.def.ghi", None).
Proof.
  apply (FromAuthHeader_returns_token (demo.request "Bearer abc.def.ghi")
           "abc.def.ghi"); reflexivity.
Defined.

Lemma absent_token_not_found_witness :
  http.Header demo.bare !! "Authorization" = None /\
  FromAuthHeader demo.bare = ("", None) /\
  Get (lib := demo.lib) demo.core demo.bare (demo.world demo.explicit) =
    (Ret (None, Some "Token not found"), demo.world demo.explicit) /\
  GetWithClaims (lib := demo.lib) demo.core demo.bare [("sub", "ann")]
    (demo.world demo.by_header) =
    (Ret (None, Some "Token not found"), demo.world demo.by_header).
Proof.
  destruct (absent_token_not_found (lib := demo.lib) demo.bare)
    as (Habsent & Hsilent & Hany & Hdefault & _).
  assert (Hnone : http.Header demo.bare !! "Authorization" = None)
    by reflexivity.
  split; [exact Hnone|]. split; [exact (Hsilent (Habsent Hnone))|]. split.
  - apply (Hdefault demo.core (demo.world demo.explicit) demo.explicit);
      [apply demo_options_at | reflexivity | exact (Habsent Hnone)].
  - apply (Hany demo.core (demo.world demo.by_header) demo.by_header
             (ExtClosure "X-Token") (demo.world demo.by_header));
      [apply demo_options_at | reflexivity | reflexivity].
Defined.

Lemma New_defaults_as_explicit_witness :
  New (Some 0) (with_options (demo.world demo.explicit) 0 demo.unset) =
    (Ret demo.core, with_options (demo.world demo.explicit) 0 demo.explicit) /\
  bind (New (Some 0))
    (fun m => Get (lib := demo.lib) m (demo.request "Bearer HS256.p.k"))
    (with_options (demo.world demo.explicit) 0 demo.unset) =
  bind (New (Some 0))
    (fun m => Get (lib := demo.lib) m (demo.request "Bearer HS256.p.k"))
    (with_options (demo.world demo.explicit) 0 demo.explicit).
Proof.
  destruct (New_defaults_as_explicit (lib := demo.lib) (demo.world demo.explicit)
              0 demo.unset) as (Hnew & _ & HG & _).
  split; [exact Hnew | apply HG].
Defined.

Lemma parse_failure_wrapped_witness :
  let w2 := demo.seen ["HS256.p.x"] demo.no_method in
  rejected_by (lib := demo.lib) (jwt_Parse (Library := demo.lib)) demo.core
    (demo.request "Bearer HS256.p.x") (demo.world demo.no_method)
    "signature is invalid" w2 /\
  validateToken demo.core (Some (demo.token "HS256" "p" "x" [] false)) w2 =
    (Panic, w2) /\
  Get (lib := demo.lib) demo.core (demo.request "Bearer HS256.p.x")
    (demo.world demo.no_method) =
    (Ret (None, Some "Error parsing token: signature is invalid"), w2).
Proof.
  intros w2.
  assert (Hr : rejected_by (lib := demo.lib) (jwt_Parse (Library := demo.lib)) demo.core
                 (demo.request "Bearer HS256.p.x") (demo.world demo.no_method)
                 "signature is invalid" w2).
  { exists "HS256.p.x", (demo.world demo.no_method), demo.no_method,
      (Some (demo.token "HS256" "p" "x" [] false)).
    split; [|split; [apply demo_options_at | reflexivity]].
    apply (demo_extracts demo.no_method "HS256.p.x" []);
      [reflexivity | discriminate | reflexivity]. }
  split; [exact Hr|]. split; [reflexivity|].
  apply (parse_failure_wrapped (lib := demo.lib) demo.core
           (demo.request "Bearer HS256.p.x") [] (demo.world demo.no_method)
           "signature is invalid" w2).
  exact Hr.
Defined.

Lemma demo_parse_alike raw claims claims' keyfunc (w : demo.World) :
  runs_alike (demo.parse raw claims keyfunc w) (demo.parse raw claims' keyfunc w).
Proof.
  unfold demo.parse.
  destruct (strings.Split raw demo.dot) as [|a [|b [|c [|]]]];
    try (repeat split; reflexivity).
  destruct keyfunc as [key|]; [|repeat split; reflexivity].
  destruct (String.eqb c key); repeat split; reflexivity.
Qed.

Lemma GetWithClaims_as_Get_witness :
  ((forall raw keyfunc w1,
      jwt_ParseWithClaims (Library := demo.lib) raw [] keyfunc w1 =
      jwt_Parse (Library := demo.lib) raw keyfunc w1) /\
   GetWithClaims (lib := demo.lib) demo.core (demo.request "Bearer HS256.p.k") []
     (demo.world demo.explicit) =
   Get (lib := demo.lib) demo.core (demo.request "Bearer HS256.p.k")
     (demo.world demo.explicit)) /\
  (jwt_ParseWithClaims (Library := demo.lib) "RS256.p.k" [("sub", "ann")]
     (Some "k") (demo.world demo.explicit) <>
   jwt_Parse (Library := demo.lib) "RS256.p.k" (Some "k")
     (demo.world demo.explicit)) /\
  (forall token token' err err' w' w'',
     GetWithClaims (lib := demo.lib) demo.core (demo.request "Bearer RS256.p.k")
       [("sub", "ann")] (demo.world demo.explicit) = (Ret (token, err), w') ->
     Get (lib := demo.lib) demo.core (demo.request "Bearer RS256.p.k")
       (demo.world demo.explicit) = (Ret (token', err'), w'') ->
     err = err' /\ (token = None <-> token' = None)) /\
  runs_alike
    (GetWithClaims (lib := demo.lib) demo.core (demo.request "Bearer HS256.p.k")
       [("sub", "ann")] (demo.world demo.explicit))
    (Get (lib := demo.lib) demo.core (demo.request "Bearer HS256.p.k")
       (demo.world demo.explicit)).
Proof.
  assert (Hagree : forall raw keyfunc w1,
     jwt_ParseWithClaims (Library := demo.lib) raw [] keyfunc w1 =
     jwt_Parse (Library := demo.lib) raw keyfunc w1) by reflexivity.
  split; [|split; [|split]].
  - split; [exact Hagree|].
    destruct (GetWithClaims_as_Get (lib := demo.lib) demo.core
                (demo.request "Bearer HS256.p.k") [] (demo.world demo.explicit))
      as (_ & _ & _ & Hsame & _).
    exact (Hsame Hagree).
  - vm_compute. intros H. discriminate H.
  - destruct (GetWithClaims_as_Get (lib := demo.lib) demo.core
                (demo.request "Bearer RS256.p.k") [("sub", "ann")]
                (demo.world demo.explicit)) as (_ & _ & _ & _ & Halike).
    apply Halike. intros raw w1 o1 _ _. apply demo_parse_alike.
  - destruct (GetWithClaims_as_Get (lib := demo.lib) demo.core
                (demo.request "Bearer HS256.p.k") [("sub", "ann")]
                (demo.world demo.explicit)) as (_ & _ & _ & _ & Halike).
    apply Halike. intros raw w1 o1 _ _. apply demo_parse_alike.
Defined.

Lemma bearer_without_token_witness :
  strings.ToLower "BEARER" = "bearer" /\
  FromAuthHeader (demo.request "BEARER ") = ("", None) /\
  Get (lib := demo.lib) demo.core (demo.request "BEARER ")
    (demo.world demo.explicit) =
    (Ret (None, Some "Token not found"), demo.world demo.explicit).
Proof.
  destruct (bearer_without_token (lib := demo.lib) (demo.request "BEARER ")
              "BEARER" eq_refl eq_refl) as (Hx & Hget & _).
  split; [reflexivity|]. split; [exact Hx|].
  apply (Hget demo.core (demo.world demo.explicit) demo.explicit);
    [apply demo_options_at | reflexivity].
Defined.

Lemma missing_alg_rejected_witness :
  let w2 := demo.seen [".p.k"] demo.explicit in
  jwt.Header (demo.token "" "p" "k" [] true) !! "alg" = None /\
  Get (lib := demo.lib) demo.core (demo.request "Bearer .p.k")
    (demo.world demo.explicit) =
    (Ret (None, Some "Invalid token algorithm. Wanted HS256, got %!s(<nil>)"), w2) /\
  (Get (lib := demo.lib) demo.core (demo.request "Bearer HS256.p.k")
     (demo.world demo.explicit) =
     (Ret (Some (demo.token "HS256" "p" "k" [] true), None),
      demo.seen ["HS256.p.k"] demo.explicit) /\
   jwt.Header (demo.token "HS256" "p" "k" [] true) !! "alg" =
     Some (IString "HS256")).
Proof.
  intros w2.
  assert (He : expects demo.core w2 jwt.SigningMethodHS256).
  { exists demo.explicit. split; [apply demo_options_at | reflexivity]. }
  assert (Hnone : jwt.Header (demo.token "" "p" "k" [] true) !! "alg" = None)
    by reflexivity.
  destruct (missing_alg_rejected (lib := demo.lib) demo.core
              (demo.request "Bearer .p.k") [] (demo.world demo.explicit)
              (demo.token "" "p" "k" [] true) w2) as (Hmissing & _ & _).
  destruct (Hmissing jwt.SigningMethodHS256 He Hnone) as (_ & HG & _).
  split; [exact Hnone|]. split.
  - apply HG. exists ".p.k", (demo.world demo.explicit), demo.explicit.
    split; [|split; [apply demo_options_at | reflexivity]].
    apply (demo_extracts demo.explicit ".p.k" []);
      [reflexivity | discriminate | reflexivity].
  - assert (Hrun :
      Get (lib := demo.lib) demo.core (demo.request "Bearer HS256.p.k")
        (demo.world demo.explicit) =
      (Ret (Some (demo.token "HS256" "p" "k" [] true), None),
       demo.seen ["HS256.p.k"] demo.explicit)) by reflexivity.
    split; [exact Hrun|].
    destruct (missing_alg_rejected (lib := demo.lib) demo.core
                (demo.request "Bearer HS256.p.k") [] (demo.world demo.explicit)
                (demo.token "HS256" "p" "k" [] true)
                (demo.seen ["HS256.p.k"] demo.explicit)) as (_ & _ & Hreturned).
    destruct (Hreturned None (or_introl Hrun)) as (_ & method & Hexp & Halg).
    destruct Hexp as (o & Ho & Hs).
    rewrite (options_at_fun _ _ _ _ Ho (demo_options_at demo.explicit _)) in Hs.
    injection Hs as <-. exact Halg.
Defined.

Lemma New_writes_in_place_witness :
  New (Some 0) (demo.world demo.unset) =
    (Ret demo.core, demo.world demo.explicit) /\
  store (demo.world demo.explicit) !! 0 <> store (demo.world demo.unset) !! 0 /\
  store (snd (Get (lib := demo.lib) demo.core (demo.request "Bearer HS256.p.k")
                (demo.world demo.explicit))) =
    store (demo.world demo.explicit) /\
  env (snd (Get (lib := demo.lib) demo.core (demo.request "Bearer HS256.p.k")
              (demo.world demo.explicit))) = ["HS256.p.k"].
Proof.
  destruct (New_writes_in_place (lib := demo.lib)) as (Hnew & _ & Hsame).
  assert (Hat : store (demo.world demo.unset) !! 0 = Some demo.unset)
    by reflexivity.
  destruct (Hnew (demo.world demo.unset) 0 demo.unset Hat)
    as (w' & Hrun & _ & _ & _ & _ & _ & _ & Hchanged).
  assert (Hw' : w' = demo.world demo.explicit).
  { assert (Heval : (Ret demo.core, w') =
                    (Ret demo.core, demo.world demo.explicit))
      by (etransitivity; [symmetry; exact Hrun | reflexivity]).
    now injection Heval. }
  subst w'.
  split; [exact Hrun|]. split; [exact (Hchanged (or_introl eq_refl))|].
  split; [|reflexivity].
  apply Hsame.
  - intros f r w. reflexivity.
  - intros raw keyfunc. apply demo_parse_same_store.
  - intros raw claims keyfunc. apply demo_parse_same_store.
Defined.


(** ** Further behaviour of the package *)

Section Outcomes.

Context {claims_t keyfunc_t closure_t env_t : Type}.
Context {lib : Library claims_t keyfunc_t closure_t env_t}.

Local Abbreviation Options := (Options keyfunc_t closure_t).
Local Abbreviation World := (World keyfunc_t closure_t env_t).
Local Abbreviation M := (M keyfunc_t closure_t env_t).
Local Abbreviation Token := (jwt.Token claims_t).

Implicit Types (m : Core) (r : http.Request) (w : World) (o : Options).
Implicit Types (claims : claims_t) (tok : Token).

Local Abbreviation with_claims claims :=
  (fun raw keyfunc => jwt_ParseWithClaims raw claims keyfunc).

Lemma rawToken_failure m r w o f raw cause w1 :
  options_at m w o -> Extractor o = Some f ->
  call_extractor f r w = (Ret (raw, Some cause), w1) ->
  rawToken m r w = (Ret ("", Some ("Error extracting token: " ++ cause)), w1).
Proof.
  intros Ho Hf Hcall. unfold rawToken.
  rewrite (bind_Ret _ _ _ _ _ (deref_at _ _ _ Ho)), Hf.
  now rewrite (bind_Ret _ _ _ _ _ Hcall).
Qed.

Lemma rawToken_failure_inv m r w raw failure w1 :
  rawToken m r w = (Ret (raw, Some failure), w1) ->
  raw = "" /\
  (failure = "Token not found" \/
   exists cause, failure = "Error extracting token: " ++ cause).
Proof.
  unfold rawToken. intros H.
  apply bind_Ret_inv in H as (o & w0 & Hd & H).
  destruct (Extractor o) as [f|]; [|discriminate].
  apply bind_Ret_inv in H as ([raw' [e|]] & w' & Hcall & H).
  - injection H as <- <- <-. split; [reflexivity|]. right. now exists e.
  - destruct (String.eqb raw' ""); [|discriminate].
    injection H as <- <- <-. split; [reflexivity|]. now left.
Qed.

Lemma entry_points_on_failure m r claims w raw failure w1 :
  rawToken m r w = (Ret (raw, Some failure), w1) ->
  Get m r w = (Ret (None, Some failure), w1) /\
  GetWithClaims m r claims w = (Ret (None, Some failure), w1).
Proof.
  intros H. unfold Get, GetWithClaims. now rewrite !(bind_Ret _ _ _ _ _ H).
Qed.

(** X1.  When the configured extractor returns an error, [rawToken] drops the
    string that came with it and [Get] and [GetWithClaims] return "Error
    extracting token: " followed by the text of that error, and no token, in
    the world the extractor left: no parse routine has run. *)
Theorem extractor_failure_wrapped m r claims w o f raw cause w1 :
  options_at m w o -> Extractor o = Some f ->
  call_extractor f r w = (Ret (raw, Some cause), w1) ->
  rawToken m r w = (Ret ("", Some ("Error extracting token: " ++ cause)), w1) /\
  Get m r w = (Ret (None, Some ("Error extracting token: " ++ cause)), w1) /\
  GetWithClaims m r claims w =
    (Ret (None, Some ("Error extracting token: " ++ cause)), w1).
Proof.
  intros Ho Hf Hcall.
  pose proof (rawToken_failure _ _ _ _ _ _ _ _ Ho Hf Hcall) as Hraw.
  split; [exact Hraw|]. now apply (entry_points_on_failure m r claims w "").
Qed.

(** X2.  With [FromAuthHeader] as the extractor, a non-empty [Authorization]
    value that is not a bearer scheme, one space and a value without a space
    makes [Get] and [GetWithClaims] return the format error behind the
    prefix "Error extracting token: ", and the world is left as it was. *)
Theorem malformed_header_reported m r claims w o :
  options_at m w o -> Extractor o = Some ExtFromAuthHeader ->
  http.Header_Get (http.Header r) "Authorization" <> "" ->
  ~ bearer_shape (http.Header_Get (http.Header r) "Authorization") ->
  let failure :=
    "Error extracting token: Authorization header format must be 'Bearer <token>'" in
  Get m r w = (Ret (None, Some failure), w) /\
  GetWithClaims m r claims w = (Ret (None, Some failure), w).
Proof.
  intros Ho Hf Hne Hshape failure.
  assert (Hx : FromAuthHeader r = ("", Some format_error)).
  { rewrite (FromAuthHeader_parts r Hne).
    rewrite bool_decide_eq_false_2; [reflexivity|].
    now rewrite <- bearer_shape_Split. }
  apply (entry_points_on_failure m r claims w "").
  apply (rawToken_failure m r w o ExtFromAuthHeader "" format_error w Ho Hf).
  simpl. unfold ret. now rewrite Hx.
Qed.

(** X3.  When the token returned by the parse routine stores under "alg" the
    string [Alg()] of the configured signing method, [Get] and
    [GetWithClaims] return that very token and no error.  Nothing else of
    the token is looked at: not its claims, not its [Valid] flag. *)
Theorem matching_token_returned m r claims w tok w2 method :
  expects m w2 method ->
  jwt.Header tok !! "alg" = Some (IString (jwt.Alg method)) ->
  (verified_by jwt_Parse m r w tok w2 ->
   Get m r w = (Ret (Some tok, None), w2)) /\
  (verified_by (with_claims claims) m r w tok w2 ->
   GetWithClaims m r claims w = (Ret (Some tok, None), w2)).
Proof.
  intros He Halg.
  assert (Hpipe : forall parse,
    verified_by parse m r w tok w2 ->
    validate_with parse m r w = (Ret (Some tok, None), w2)).
  { intros parse (raw & w1 & o1 & Hx & Ho & Hp).
    rewrite (validate_with_parsed _ _ _ _ _ _ _ _ _ Hx Ho Hp). simpl.
    rewrite (bind_Ret _ _ _ _ _ (validateToken_run _ _ _ _ He)).
    unfold map_index. rewrite Halg. simpl. now rewrite String.eqb_refl. }
  split; intros Hv; [rewrite Get_pipeline | rewrite GetWithClaims_pipeline];
    now apply Hpipe.
Qed.

Section Classified.

Variable parse : string -> option keyfunc_t -> M (parsed claims_t).

Lemma validate_with_classified m r w token err w' :
  validate_with parse m r w = (Ret (token, err), w') ->
  (exists tok method,
     token = Some tok /\ err = None /\
     verified_by parse m r w tok w' /\ expects m w' method /\
     jwt.Header tok !! "alg" = Some (IString (jwt.Alg method))) \/
  (token = None /\ err = Some "Token not found") \/
  (exists cause,
     token = None /\ err = Some ("Error extracting token: " ++ cause)) \/
  (exists cause,
     token = None /\ err = Some ("Error parsing token: " ++ cause) /\
     rejected_by parse m r w cause w') \/
  (exists tok method,
     token = None /\
     err = Some ("Invalid token algorithm. Wanted " ++ jwt.Alg method
                 ++ ", got " ++ Sprint_s (map_index (jwt.Header tok) "alg")) /\
     verified_by parse m r w tok w' /\ expects m w' method /\
     map_index (jwt.Header tok) "alg" <> IString (jwt.Alg method)).
Proof.
  unfold validate_with. intros H.
  apply bind_Ret_inv in H as ([raw [failure|]] & w1 & Hraw & H); simpl in H.
  - injection H as <- <- <-.
    apply rawToken_failure_inv in Hraw as (_ & [-> | (cause & ->)]).
    + right. left. now split.
    + right. right. left. now exists cause.
  - apply rawToken_Ret_inv in Hraw.
    apply bind_Ret_inv in H as (o1 & w1' & Hd & H).
    apply deref_Ret_inv in Hd as [-> Ho].
    apply bind_Ret_inv in H as ([token' [cause|]] & w2 & Hp & H); simpl in H.
    + injection H as <- <- <-. right. right. right. left.
      exists cause. repeat split. now exists raw, w1, o1, token'.
    + apply bind_Ret_inv in H as (verdict & w3 & Hv & H).
      unfold validateToken in Hv.
      apply bind_Ret_inv in Hv as (o2 & w2' & Hd & Hv).
      apply deref_Ret_inv in Hd as [-> Ho2].
      destruct (SigningMethod o2) as [method|] eqn:Hs; [|discriminate].
      destruct token' as [tok|]; [|discriminate].
      assert (He : expects m w2 method) by now exists o2.
      assert (Hvb : verified_by parse m r w tok w2) by now exists raw, w1, o1.
      destruct (iface_eq_string _ _) eqn:E; simpl in Hv;
        injection Hv as <- <-; injection H as <- <- <-.
      * left. exists tok, method. repeat split; auto.
        apply iface_eq_string_spec in E. unfold map_index in E.
        destruct (jwt.Header tok !! "alg") as [v|]; simpl in E; congruence.
      * right. right. right. right. exists tok, method. repeat split; auto.
        intros Heq. apply iface_eq_string_spec in Heq. congruence.
Qed.

End Classified.

(** X4.  Whatever [Get] returns is of one of five kinds: the token of the parse
    routine, carrying the configured algorithm, and no error; or no token
    and "Token not found", an extraction error, a parsing error with the
    cause the parse routine gave, or the algorithm mismatch.  It never
    returns a token together with an error, nor neither.  The four error
    texts differ pairwise whatever they carry, so the failed step can be
    read off the text.  The same holds of [GetWithClaims]. *)
Theorem outcome_classified m r claims w token err w' :
  Get m r w = (Ret (token, err), w') \/
  GetWithClaims m r claims w = (Ret (token, err), w') ->
  ((exists tok method,
      token = Some tok /\ err = None /\ expects m w' method /\
      jwt.Header tok !! "alg" = Some (IString (jwt.Alg method))) \/
   (token = None /\ err = Some "Token not found") \/
   (exists cause,
      token = None /\ err = Some ("Error extracting token: " ++ cause)) \/
   (exists cause,
      token = None /\ err = Some ("Error parsing token: " ++ cause)) \/
   (exists tok method,
      token = None /\
      err = Some ("Invalid token algorithm. Wanted " ++ jwt.Alg method
                  ++ ", got " ++ Sprint_s (map_index (jwt.Header tok) "alg")) /\
      expects m w' method /\
      map_index (jwt.Header tok) "alg" <> IString (jwt.Alg method))) /\
  (forall a b, "Error extracting token: " ++ a <> "Error parsing token: " ++ b) /\
  (forall a b c,
     "Error extracting token: " ++ a <>
     "Invalid token algorithm. Wanted " ++ b ++ ", got " ++ c) /\
  (forall a b c,
     "Error parsing token: " ++ a <>
     "Invalid token algorithm. Wanted " ++ b ++ ", got " ++ c) /\
  (forall a, "Token not found" <> "Error extracting token: " ++ a) /\
  (forall a, "Token not found" <> "Error parsing token: " ++ a) /\
  (forall b c,
     "Token not found" <> "Invalid token algorithm. Wanted " ++ b ++ ", got " ++ c).
Proof.
  intros H. split; [|repeat split; intros; discriminate].
  assert (Hpipe : exists parse,
    validate_with parse m r w = (Ret (token, err), w')).
  { destruct H as [H|H].
    - exists jwt_Parse. now rewrite <- Get_pipeline.
    - exists (with_claims claims). now rewrite <- GetWithClaims_pipeline. }
  destruct Hpipe as (parse & Hpipe).
  apply validate_with_classified in Hpipe
    as [(tok & method & -> & -> & _ & He & Ha)
       |[(-> & ->)
       |[(cause & -> & ->)
       |[(cause & -> & -> & _)
       |(tok & method & -> & -> & _ & He & Hne)]]]].
  - left. now exists tok, method.
  - right. left. now split.
  - right. right. left. now exists cause.
  - right. right. right. left. now exists cause.
  - right. right. right. right. now exists tok, method.
Qed.

End Outcomes.

(** ** Further behaviour of the default extractor *)

(** X5.  [FromAuthHeader] returns a string without an error in two cases only:
    the empty string when the header is absent or empty, and otherwise the
    part behind the single space of a header whose first part spells
    "bearer" in any case.  When it returns an error, that is the format
    error and the string with it is empty; it has no other result. *)
Theorem FromAuthHeader_accepts_iff r :
  let header := http.Header_Get (http.Header r) "Authorization" in
  (forall token,
     FromAuthHeader r = (token, None) <->
     (header = "" /\ token = "") \/
     (exists scheme,
        header = scheme ++ " " ++ token /\
        strings.ToLower scheme = "bearer" /\
        strings.lacks strings.space token = true)) /\
  (forall token failure,
     FromAuthHeader r = (token, Some failure) ->
     token = "" /\ failure = format_error /\ header <> "" /\
     ~ bearer_shape header).
Proof.
  intros header. split.
  - intros token. split.
    + intros H. destruct (String.eqb_spec header "") as [Hempty|Hne].
      * left. split; [exact Hempty|].
        rewrite (FromAuthHeader_silent r Hempty) in H. congruence.
      * right. rewrite (FromAuthHeader_parts r Hne) in H. fold header in H.
        destruct (bool_decide _) eqn:E; [|discriminate].
        apply bool_decide_eq_true_1 in E as [Hlen Hlow].
        destruct (strings.Split header strings.space) as [|a [|b [|]]] eqn:Hs;
          try discriminate Hlen.
        simpl in H, Hlow. injection H as <-.
        apply Split_pair_inv in Hs as (Hh & _ & Hb).
        exists a. repeat split; auto.
    + intros [[Hempty ->] | (scheme & Hh & Hlow & Htok)].
      * now apply FromAuthHeader_silent.
      * now apply (FromAuthHeader_bearer r scheme token).
  - intros token failure H.
    destruct (String.eqb_spec header "") as [Hempty|Hne].
    + rewrite (FromAuthHeader_silent r Hempty) in H. discriminate.
    + rewrite (FromAuthHeader_parts r Hne) in H. fold header in H.
      destruct (bool_decide _) eqn:E; [discriminate|].
      apply bool_decide_eq_false_1 in E.
      injection H as <- <-. repeat split; auto.
      now rewrite bearer_shape_Split.
Qed.

(** ** Configuration, panics and what the parse routines are given *)

Section Configuration.

Context {claims_t keyfunc_t closure_t env_t : Type}.
Context {lib : Library claims_t keyfunc_t closure_t env_t}.

Local Abbreviation Options := (Options keyfunc_t closure_t).
Local Abbreviation World := (World keyfunc_t closure_t env_t).
Local Abbreviation M := (M keyfunc_t closure_t env_t).
Local Abbreviation Token := (jwt.Token claims_t).

Implicit Types (m : Core) (r : http.Request) (w : World) (o : Options).
Implicit Types (claims : claims_t) (tok : Token).

Local Abbreviation with_claims claims :=
  (fun raw keyfunc => jwt_ParseWithClaims raw claims keyfunc).

Lemma with_defaults_twice o : with_defaults (with_defaults o) = with_defaults o.
Proof. reflexivity. Qed.

Lemma with_defaults_set o f method :
  Extractor o = Some f -> SigningMethod o = Some method -> with_defaults o = o.
Proof. destruct o as [k e s]. simpl. intros -> ->. reflexivity. Qed.

Lemma rawToken_same_extraction m r1 r2 w o :
  options_at m w o -> Extractor o = Some ExtFromAuthHeader ->
  FromAuthHeader r1 = FromAuthHeader r2 ->
  rawToken m r1 w = rawToken m r2 w.
Proof.
  intros Ho Hf Heq. unfold rawToken.
  rewrite !(bind_Ret _ _ _ _ _ (deref_at _ _ _ Ho)), Hf. simpl.
  now rewrite Heq.
Qed.

(** X6.  With [FromAuthHeader] as the extractor, the request reaches [Get] and
    [GetWithClaims] only through what [FromAuthHeader] returns for it: two
    requests with the same extraction (the same bearer token under schemes
    spelt in different case, with other headers or further values) get the
    same outcome in the same world. *)
Theorem same_extraction_same_outcome m r1 r2 claims w o :
  options_at m w o -> Extractor o = Some ExtFromAuthHeader ->
  FromAuthHeader r1 = FromAuthHeader r2 ->
  Get m r1 w = Get m r2 w /\
  GetWithClaims m r1 claims w = GetWithClaims m r2 claims w.
Proof.
  intros Ho Hf Heq.
  pose proof (rawToken_same_extraction m r1 r2 w o Ho Hf Heq) as Hraw.
  unfold Get, GetWithClaims, bind. now rewrite Hraw.
Qed.

(** X7.  [New] a second time on the same pointer changes nothing and returns the
    same core; and on a struct with both fields set already the first call
    writes nothing either. *)
Theorem New_idempotent p w :
  bind (New p) (fun _ => New (keyfunc_t := keyfunc_t) (closure_t := closure_t) p) w
  = New p w /\
  (forall l o f method,
     p = Some l -> store w !! l = Some o ->
     Extractor o = Some f -> SigningMethod o = Some method ->
     New p w = (Ret {| Core_Options := Some l |}, w)).
Proof.
  split.
  - destruct p as [l|]; [|reflexivity].
    destruct (store w !! l) as [o|] eqn:H.
    + rewrite (bind_Ret _ _ _ _ _ (New_run w l o H)).
      rewrite (New_run _ l (with_defaults o)) by (simpl; apply lookup_insert_eq).
      rewrite with_options_twice, with_defaults_twice.
      now rewrite (New_run w l o H).
    + assert (Hp : New (keyfunc_t := keyfunc_t) (closure_t := closure_t)
                     (env_t := env_t) (Some l) w = (Panic, w)).
      { unfold New, bind, deref. now rewrite H. }
      now rewrite (bind_Panic _ _ _ _ Hp), Hp.
  - intros l o f method -> H Hf Hs.
    rewrite (New_run w l o H), (with_defaults_set o f method Hf Hs).
    now rewrite (with_options_same w l o H).
Qed.

(** X8.  A core whose pointer is nil, or whose struct has no extractor (one not
    made by [New]), makes [Get] and [GetWithClaims] panic on every request,
    before any extractor or parse routine is called; [New] on the nil
    pointer panics as well. *)
Theorem unconfigured_core_panics m r claims w :
  Core_Options m = None \/ (exists o, options_at m w o /\ Extractor o = None) ->
  Get m r w = (Panic, w) /\
  GetWithClaims m r claims w = (Panic, w) /\
  New (keyfunc_t := keyfunc_t) (closure_t := closure_t) None w = (Panic, w).
Proof.
  intros H.
  assert (Hraw : rawToken m r w = (Panic, w)).
  { unfold rawToken. destruct H as [H | (o & Ho & Hf)].
    - apply bind_Panic. unfold deref. now rewrite H.
    - now rewrite (bind_Ret _ _ _ _ _ (deref_at _ _ _ Ho)), Hf. }
  split; [|split; [|reflexivity]].
  - unfold Get. now apply bind_Panic.
  - unfold GetWithClaims. now apply bind_Panic.
Qed.

(** X9.  Without a signing method in the struct, a request whose token the parse
    routine accepts makes [Get] and [GetWithClaims] panic, after the parse
    routine has run. *)
Theorem missing_method_panics m r claims w tok w2 o2 :
  options_at m w2 o2 -> SigningMethod o2 = None ->
  (verified_by jwt_Parse m r w tok w2 -> Get m r w = (Panic, w2)) /\
  (verified_by (with_claims claims) m r w tok w2 ->
   GetWithClaims m r claims w = (Panic, w2)).
Proof.
  intros Ho Hs.
  assert (Hpipe : forall parse,
    verified_by parse m r w tok w2 -> validate_with parse m r w = (Panic, w2)).
  { intros parse (raw & w1 & o1 & Hx & Ho1 & Hp).
    rewrite (validate_with_parsed _ _ _ _ _ _ _ _ _ Hx Ho1 Hp). simpl.
    apply bind_Panic. unfold validateToken.
    now rewrite (bind_Ret _ _ _ _ _ (deref_at _ _ _ Ho)), Hs. }
  split; intros Hv; [rewrite Get_pipeline | rewrite GetWithClaims_pipeline];
    now apply Hpipe.
Qed.

(** X10.  [validateToken] reads the header of the token without testing the
    pointer: should the parse routine return neither a token nor an error,
    [Get] and [GetWithClaims] panic. *)
Theorem nil_token_panics m r claims w raw w1 o1 w2 method :
  extracts m r w raw w1 -> options_at m w1 o1 -> expects m w2 method ->
  (jwt_Parse raw (Keyfunc o1) w1 = (Ret (None, None), w2) ->
   Get m r w = (Panic, w2)) /\
  (jwt_ParseWithClaims raw claims (Keyfunc o1) w1 = (Ret (None, None), w2) ->
   GetWithClaims m r claims w = (Panic, w2)).
Proof.
  intros Hx Ho (o2 & Ho2 & Hs).
  assert (Hpipe : forall parse,
    parse raw (Keyfunc o1) w1 = (Ret (None, None), w2) ->
    validate_with parse m r w = (Panic, w2)).
  { intros parse Hp.
    rewrite (validate_with_parsed _ _ _ _ _ _ _ _ _ Hx Ho Hp). simpl.
    apply bind_Panic. unfold validateToken.
    now rewrite (bind_Ret _ _ _ _ _ (deref_at _ _ _ Ho2)), Hs. }
  split; intros Hp; [rewrite Get_pipeline | rewrite GetWithClaims_pipeline];
    now apply Hpipe.
Qed.


(** X12.  The core keeps the caller's pointer, not a copy: a signing method
    written into the struct after [New] is the one [validateToken] expects
    from then on. *)
Theorem core_sees_later_writes w l o method tok :
  store w !! l = Some o ->
  bind (New (Some l))
    (fun m => bind (set_SigningMethod (Some l) (Some method))
                (fun _ => validateToken m (Some tok))) w =
  (Ret (if iface_eq_string (jwt.Alg method) (map_index (jwt.Header tok) "alg")
        then None
        else Some ("Invalid token algorithm. Wanted " ++ jwt.Alg method
                   ++ ", got " ++ Sprint_s (map_index (jwt.Header tok) "alg"))),
   with_options w l
     {| Keyfunc := Keyfunc o;
        Extractor := Some (default ExtFromAuthHeader (Extractor o));
        SigningMethod := Some method |}).
Proof.
  intros H. rewrite (bind_Ret _ _ _ _ _ (New_run w l o H)).
  set (written := {| Keyfunc := Keyfunc o;
                     Extractor := Some (default ExtFromAuthHeader (Extractor o));
                     SigningMethod := Some method |}).
  assert (Hset : set_SigningMethod (env_t := env_t) (Some l) (Some method)
                   (with_options w l (with_defaults o)) =
                 (Ret tt, with_options w l written)).
  { unfold set_SigningMethod, bind, deref, assign. simpl.
    rewrite !lookup_insert_eq. simpl. rewrite lookup_insert_eq.
    unfold with_options. simpl. now rewrite insert_insert_eq. }
  rewrite (bind_Ret _ _ _ _ _ Hset).
  apply validateToken_run. exists written. split; [|reflexivity].
  exists l. split; [reflexivity|]. simpl. apply lookup_insert_eq.
Qed.

End Configuration.

Section TwoLibraries.

Context {claims_t keyfunc_t closure_t env_t : Type}.
Variables lib1 lib2 : Library claims_t keyfunc_t closure_t env_t.

(** X13.  The parse routines are never handed the empty string: two libraries
    with the same extractors whose parse routines agree on every non-empty
    string give the same outcome of [Get] and of [GetWithClaims], whatever
    their parse routines do on the empty string. *)
Theorem parser_never_given_empty m r claims w :
  (forall f r w,
     call_closure (Library := lib1) f r w = call_closure (Library := lib2) f r w) ->
  (forall raw keyfunc w,
     raw <> "" ->
     jwt_Parse (Library := lib1) raw keyfunc w =
     jwt_Parse (Library := lib2) raw keyfunc w) ->
  (forall raw keyfunc w,
     raw <> "" ->
     jwt_ParseWithClaims (Library := lib1) raw claims keyfunc w =
     jwt_ParseWithClaims (Library := lib2) raw claims keyfunc w) ->
  Get (lib := lib1) m r w = Get (lib := lib2) m r w /\
  GetWithClaims (lib := lib1) m r claims w =
  GetWithClaims (lib := lib2) m r claims w.
Proof.
  intros Hclosure Hparse Hparsec.
  assert (Hraw : rawToken (lib := lib1) m r w = rawToken (lib := lib2) m r w).
  { unfold rawToken, bind.
    destruct (deref (Core_Options m) w) as [[o|] w0]; [|reflexivity].
    destruct (Extractor o) as [[|f]|]; try reflexivity.
    simpl. now rewrite Hclosure. }
  assert (Hnonempty : forall raw w1,
    rawToken (lib := lib2) m r w = (Ret (raw, None), w1) -> raw <> "").
  { intros raw w1 H. apply rawToken_Ret_inv in H as (o & f & _ & _ & _ & Hne).
    exact Hne. }
  unfold Get, GetWithClaims, bind. rewrite Hraw.
  destruct (rawToken (lib := lib2) m r w) as [[[raw [failure|]]|] w1] eqn:E;
    try (split; reflexivity).
  destruct (deref (Core_Options m) w1) as [[o|] w1']; try (split; reflexivity).
  rewrite (Hparse raw (Keyfunc o) w1' (Hnonempty raw w1 eq_refl)).
  rewrite (Hparsec raw (Keyfunc o) w1' (Hnonempty raw w1 eq_refl)).
  split; reflexivity.
Qed.

End TwoLibraries.

(** ** The further theorems at work on the small library *)


Lemma demo_not_bearer_shape header :
  Nat.eqb (length (strings.Split header strings.space)) 2
  && String.eqb (strings.ToLower (nth 0 (strings.Split header strings.space) ""))
       "bearer" = false ->
  ~ bearer_shape header.
Proof.
  intros H Hshape. apply bearer_shape_Split in Hshape as [Hlen Hlow].
  rewrite Hlen, Hlow in H. discriminate H.
Qed.

Lemma extractor_failure_wrapped_witness :
  call_extractor (lib := demo.lib) ExtFromAuthHeader (demo.request "Token abc")
    (demo.world demo.explicit) =
    (Ret ("", Some format_error), demo.world demo.explicit) /\
  Get (lib := demo.lib) demo.core (demo.request "Token abc")
    (demo.world demo.explicit) =
    (Ret (None, Some ("Error extracting token: " ++ format_error)),
     demo.world demo.explicit).
Proof.
  assert (Hcall :
    call_extractor (lib := demo.lib) ExtFromAuthHeader (demo.request "Token abc")
      (demo.world demo.explicit) =
    (Ret ("", Some format_error), demo.world demo.explicit)) by reflexivity.
  split; [exact Hcall|].
  apply (extractor_failure_wrapped (lib := demo.lib) demo.core
           (demo.request "Token abc") [] (demo.world demo.explicit)
           demo.explicit ExtFromAuthHeader "" format_error
           (demo.world demo.explicit));
    [apply demo_options_at | reflexivity | exact Hcall].
Defined.

Lemma malformed_header_reported_witness :
  ~ bearer_shape "Basic dXNlcjpwYXNz" /\
  Get (lib := demo.lib) demo.core (demo.request "Basic dXNlcjpwYXNz")
    (demo.world demo.explicit) =
    (Ret (None,
          Some "Error extracting token: Authorization header format must be 'Bearer <token>'"),
     demo.world demo.explicit).
Proof.
  assert (Hshape : ~ bearer_shape "Basic dXNlcjpwYXNz")
    by (apply demo_not_bearer_shape; reflexivity).
  split; [exact Hshape|].
  apply (malformed_header_reported (lib := demo.lib) demo.core
           (demo.request "Basic dXNlcjpwYXNz") [] (demo.world demo.explicit)
           demo.explicit);
    [apply demo_options_at | reflexivity | discriminate | exact Hshape].
Defined.

Lemma matching_token_returned_witness :
  Get (lib := demo.lib) demo.core (demo.request "Bearer HS256.p.k")
    (demo.world demo.explicit) =
    (Ret (Some (demo.token "HS256" "p" "k" [] true), None),
     demo.seen ["HS256.p.k"] demo.explicit) /\
  GetWithClaims (lib := demo.lib) demo.core (demo.request "Bearer HS256.p.k")
    [("sub", "ann")] (demo.world demo.explicit) =
    (Ret (Some (demo.token "HS256" "p" "k" [("sub", "ann")] true), None),
     demo.seen ["HS256.p.k"] demo.explicit).
Proof.
  assert (He : expects demo.core (demo.seen ["HS256.p.k"] demo.explicit)
                 jwt.SigningMethodHS256).
  { exists demo.explicit. split; [apply demo_options_at | reflexivity]. }
  assert (Hx : extracts (lib := demo.lib) demo.core
                 (demo.request "Bearer HS256.p.k") (demo.world demo.explicit)
                 "HS256.p.k" (demo.world demo.explicit)).
  { apply (demo_extracts demo.explicit "HS256.p.k" []);
      [reflexivity | discriminate | reflexivity]. }
  split.
  - apply (matching_token_returned (lib := demo.lib) demo.core
             (demo.request "Bearer HS256.p.k") [] (demo.world demo.explicit)
             (demo.token "HS256" "p" "k" [] true)
             (demo.seen ["HS256.p.k"] demo.explicit) jwt.SigningMethodHS256
             He eq_refl).
    exists "HS256.p.k", (demo.world demo.explicit), demo.explicit.
    split; [exact Hx|]. split; [apply demo_options_at | reflexivity].
  - apply (matching_token_returned (lib := demo.lib) demo.core
             (demo.request "Bearer HS256.p.k") [("sub", "ann")]
             (demo.world demo.explicit)
             (demo.token "HS256" "p" "k" [("sub", "ann")] true)
             (demo.seen ["HS256.p.k"] demo.explicit) jwt.SigningMethodHS256
             He eq_refl).
    exists "HS256.p.k", (demo.world demo.explicit), demo.explicit.
    split; [exact Hx|]. split; [apply demo_options_at | reflexivity].
Defined.

Lemma outcome_classified_witness :
  Get (lib := demo.lib) demo.core (demo.request "Bearer HS256.p.x")
    (demo.world demo.explicit) =
    (Ret (None, Some "Error parsing token: signature is invalid"),
     demo.seen ["HS256.p.x"] demo.explicit) /\
  exists cause,
    "Error parsing token: signature is invalid" = "Error parsing token: " ++ cause.
Proof.
  assert (Hrun :
    Get (lib := demo.lib) demo.core (demo.request "Bearer HS256.p.x")
      (demo.world demo.explicit) =
    (Ret (None, Some "Error parsing token: signature is invalid"),
     demo.seen ["HS256.p.x"] demo.explicit)) by reflexivity.
  split; [exact Hrun|].
  destruct (proj1 (outcome_classified (lib := demo.lib) demo.core
                     (demo.request "Bearer HS256.p.x") []
                     (demo.world demo.explicit) None
                     (Some "Error parsing token: signature is invalid")
                     (demo.seen ["HS256.p.x"] demo.explicit) (or_introl Hrun)))
    as [(tok & method & Ht & _)
       |[(_ & He)
       |[(cause & _ & He)
       |[(cause & _ & He)
       |(tok & method & _ & He & _)]]]];
    try discriminate; try (simpl in He; discriminate He).
  exists cause. injection He as He.
  exact (f_equal (String.append "Error parsing token: ") He).
Defined.

Lemma FromAuthHeader_accepts_iff_witness :
  FromAuthHeader (demo.request "bEaReR abc.def.ghi") = ("abc.def.ghi", None).
Proof.
  destruct (FromAuthHeader_accepts_iff (demo.request "bEaReR abc.def.ghi"))
    as (Hiff & _).
  apply Hiff. right. exists "bEaReR". repeat split.
Defined.

Lemma same_extraction_same_outcome_witness :
  FromAuthHeader (demo.request "bearer HS256.p.k") =
  FromAuthHeader (demo.request_with_cookie "BEARER HS256.p.k") /\
  Get (lib := demo.lib) demo.core (demo.request "bearer HS256.p.k")
    (demo.world demo.explicit) =
  Get (lib := demo.lib) demo.core (demo.request_with_cookie "BEARER HS256.p.k")
    (demo.world demo.explicit).
Proof.
  assert (Heq : FromAuthHeader (demo.request "bearer HS256.p.k") =
                FromAuthHeader (demo.request_with_cookie "BEARER HS256.p.k"))
    by reflexivity.
  split; [exact Heq|].
  apply (same_extraction_same_outcome (lib := demo.lib) demo.core
           (demo.request "bearer HS256.p.k")
           (demo.request_with_cookie "BEARER HS256.p.k") []
           (demo.world demo.explicit) demo.explicit);
    [apply demo_options_at | reflexivity | exact Heq].
Defined.

Lemma New_idempotent_witness :
  bind (New (Some 0)) (fun _ => New (Some 0)) (demo.world demo.unset) =
    (Ret demo.core, demo.world demo.explicit) /\
  New (Some 0) (demo.world demo.by_header) =
    (Ret demo.core, demo.world demo.by_header).
Proof.
  split.
  - etransitivity;
      [exact (proj1 (New_idempotent (Some 0) (demo.world demo.unset)))
      | reflexivity].
  - exact (proj2 (New_idempotent (Some 0) (demo.world demo.by_header))
             0 demo.by_header (ExtClosure "X-Token") jwt.SigningMethodHS256
             eq_refl eq_refl eq_refl eq_refl).
Defined.

Lemma unconfigured_core_panics_witness :
  options_at demo.core (demo.world demo.no_extractor) demo.no_extractor /\
  Get (lib := demo.lib) demo.core (demo.request "Bearer HS256.p.k")
    (demo.world demo.no_extractor) = (Panic, demo.world demo.no_extractor) /\
  Get (lib := demo.lib) {| Core_Options := None |}
    (demo.request "Bearer HS256.p.k") (demo.world demo.explicit) =
    (Panic, demo.world demo.explicit).
Proof.
  split; [apply demo_options_at|]. split.
  - apply (unconfigured_core_panics (lib := demo.lib) demo.core
             (demo.request "Bearer HS256.p.k") [] (demo.world demo.no_extractor)).
    right. exists demo.no_extractor. split; [apply demo_options_at | reflexivity].
  - apply (unconfigured_core_panics (lib := demo.lib) {| Core_Options := None |}
             (demo.request "Bearer HS256.p.k") [] (demo.world demo.explicit)).
    left. reflexivity.
Defined.

Lemma missing_method_panics_witness :
  Get (lib := demo.lib) demo.core (demo.request "Bearer HS256.p.k")
    (demo.world demo.no_method) =
    (Panic, demo.seen ["HS256.p.k"] demo.no_method).
Proof.
  apply (missing_method_panics (lib := demo.lib) demo.core
           (demo.request "Bearer HS256.p.k") [] (demo.world demo.no_method)
           (demo.token "HS256" "p" "k" [] true)
           (demo.seen ["HS256.p.k"] demo.no_method) demo.no_method);
    [apply demo_options_at | reflexivity |].
  exists "HS256.p.k", (demo.world demo.no_method), demo.no_method.
  split; [|split; [apply demo_options_at | reflexivity]].
  apply (demo_extracts demo.no_method "HS256.p.k" []);
    [reflexivity | discriminate | reflexivity].
Defined.

Lemma nil_token_panics_witness :
  jwt_Parse (Library := demo.hollow) "HS256.p.k" (Some "k")
    (demo.world demo.explicit) = (Ret (None, None), demo.world demo.explicit) /\
  Get (lib := demo.hollow) demo.core (demo.request "Bearer HS256.p.k")
    (demo.world demo.explicit) = (Panic, demo.world demo.explicit).
Proof.
  split; [reflexivity|].
  apply (nil_token_panics (lib := demo.hollow) demo.core
           (demo.request "Bearer HS256.p.k") [] (demo.world demo.explicit)
           "HS256.p.k" (demo.world demo.explicit) demo.explicit
           (demo.world demo.explicit) jwt.SigningMethodHS256).
  - exists demo.explicit, ExtFromAuthHeader.
    split; [apply demo_options_at|]. split; [reflexivity|].
    split; [reflexivity | discriminate].
  - apply demo_options_at.
  - exists demo.explicit. split; [apply demo_options_at | reflexivity].
  - reflexivity.
Defined.


Lemma core_sees_later_writes_witness :
  bind (New (Some 0))
    (fun m => bind (set_SigningMethod (Some 0) (Some {| jwt.Alg := "RS256" |}))
                (fun _ => validateToken m
                            (Some (demo.token "HS256" "p" "k" [] true))))
    (demo.world demo.unset) =
  (Ret (Some "Invalid token algorithm. Wanted RS256, got HS256"),
   demo.world {| Keyfunc := Some "k";
                 Extractor := Some ExtFromAuthHeader;
                 SigningMethod := Some {| jwt.Alg := "RS256" |} |}).
Proof.
  etransitivity;
    [apply (core_sees_later_writes (demo.world demo.unset) 0 demo.unset
              {| jwt.Alg := "RS256" |} (demo.token "HS256" "p" "k" [] true));
     reflexivity
    | reflexivity].
Defined.

Lemma parser_never_given_empty_witness :
  jwt_Parse (Library := demo.strict) "" (Some "k") (demo.world demo.explicit) =
    (Panic, demo.world demo.explicit) /\
  Get (lib := demo.lib) demo.core (demo.request "Bearer ")
    (demo.world demo.explicit) =
  Get (lib := demo.strict) demo.core (demo.request "Bearer ")
    (demo.world demo.explicit).
Proof.
  split; [reflexivity|].
  apply (parser_never_given_empty demo.lib demo.strict demo.core
           (demo.request "Bearer ") [] (demo.world demo.explicit)).
  - reflexivity.
  - intros raw keyfunc w Hne. simpl. now rewrite (String_eqb_empty raw Hne).
  - intros raw keyfunc w Hne. simpl. now rewrite (String_eqb_empty raw Hne).
Defined.
